(** * Vision Translator: the capture, OCR, translate and compose pipeline

    A shallow embedding of [app.py] (class [API]) and the properties of its
    pipeline.  Python values are modelled as follows.

    - [str] is a list of Unicode code points ([pystr]); the literals of the
      program and file-system paths are ASCII and written as [string].
    - [float] is IEEE 754 binary64, Rocq's primitive [float]; the formulas of
      the coordinate mapping are written over the operations of an
      arithmetic class, of which binary64 is the instance.
    - A function that may raise returns an [outcome]; a function with
      effects is a state transformer over a [world] made of the file system
      and the trace of calls to the collaborators (screen capture, Vision
      OCR, the translation engine, PIL, [print]).
    - What the collaborators answer is given by an environment [env]; every
      statement quantifies over it.
    - The program is read twice.  The first reading takes every [print]
      to succeed, every exception to be an instance of [Exception], and
      the recognition to answer with a truth value.  The second (module
      [Py]) drops the three assumptions; where they hold the two readings
      agree (lemma [capture_and_translate_agrees]). *)

From Stdlib Require Import ZArith NArith List String Ascii Strings.Byte Uint63 Floats Lia.
From Stdlib Require Import Sorted.
From stdpp Require Import base list strings gmap.
Import ListNotations.

Set Warnings "-inexact-float".
Local Open Scope Z_scope.

(** ** Strings *)

(** A Python [str]: the sequence of its code points. *)
Abbreviation pystr := (list N).

(** An ASCII literal of the program as a [str]. *)
Definition str (s : string) : pystr :=
  map N_of_ascii (list_ascii_of_string s).

(** ** Arithmetic of the coordinate formulas *)

(** The operations lines 92-100 apply to box coordinates and image sizes.
    [of_int] is the conversion Python applies to an [int] operand of a mixed
    operation and [one] is the literal [1.0]. *)
Class Arith (T : Type) := {
  one : T;
  of_int : Z -> T;
  add : T -> T -> T;
  sub : T -> T -> T;
  mul : T -> T -> T;
}.

(** [float(n)] for an [int] within 63 bits (image sizes and the padding). *)
Definition float_of_int (n : Z) : float :=
  match n with
  | Z0 => 0%float
  | Zpos _ => PrimFloat.of_uint63 (Uint63.of_Z n)
  | Zneg _ => PrimFloat.opp (PrimFloat.of_uint63 (Uint63.of_Z (- n)))
  end.

(** Python's own arithmetic: binary64, round to nearest even. *)
#[export] Instance binary64 : Arith float := {
  one := 1%float;
  of_int := float_of_int;
  add := PrimFloat.add;
  sub := PrimFloat.sub;
  mul := PrimFloat.mul;
}.

(** ** Data model *)

(** [item['box']]: the dict with keys x, y, w, h that [_ocr_vision] builds
    from a Vision bounding box (normalised, origin at the bottom left). *)
Record NormalizedBox (T : Type) := mkBox {
  box_x : T;
  box_y : T;
  box_w : T;
  box_h : T;
}.
Arguments mkBox {T} _ _ _ _.
Arguments box_x {T} _.
Arguments box_y {T} _.
Arguments box_w {T} _.
Arguments box_h {T} _.

(** The locals x, y, w, h of the drawing loop (pixels, origin at the top
    left). *)
Record PixelRect (T : Type) := mkRect {
  px_x : T;
  px_y : T;
  px_w : T;
  px_h : T;
}.
Arguments mkRect {T} _ _ _ _.
Arguments px_x {T} _.
Arguments px_y {T} _.
Arguments px_w {T} _.
Arguments px_h {T} _.

(** Lines 92-95 of [capture_and_translate]. *)
Definition toPixelRect {T} `{Arith T} (box : NormalizedBox T)
    (width height : Z) : PixelRect T :=
  {| px_x := mul (box_x box) (of_int width);
     px_y := mul (sub one (add (box_y box) (box_h box))) (of_int height);
     px_w := mul (box_w box) (of_int width);
     px_h := mul (box_h box) (of_int height) |}.

(** The mapping as Python runs it. *)
Definition toPixelRect_float : NormalizedBox float -> Z -> Z -> PixelRect float :=
  toPixelRect.

(** One entry of the list [_ocr_vision] returns: the dict with keys text
    and box. *)
Record fragment := mkFragment {
  text : pystr;
  box : NormalizedBox float;
}.

(** ** Exceptions *)

(** The exceptions the handlers of the program name: those of class
    [subprocess.CalledProcessError], and every other [Exception] with the
    text [str(e)] gives.  What is only a [BaseException] is added in
    [Py.raised]. *)
Inductive exn :=
| CalledProcessError (returncode : Z)
| Exception (msg : pystr).

(** What a call yields: a value, or an exception. *)
Inductive outcome (A : Type) :=
| Return (a : A)
| Raise (e : exn).
Arguments Return {A} _.
Arguments Raise {A} _.

(** ** The world: files and the trace of collaborator calls *)

(** The lines the program prints (lines 54, 67, 121 and 138). *)
Inductive log_line :=
| LogTranslationError (text : pystr) (e : exn)
| LogOcrFound (n : nat)
| LogTraceback (e : exn)
| LogLanguagesWarning (e : exn).

(** What [ImageFont.truetype(path, size)] and [ImageFont.load_default()]
    return. *)
Inductive font :=
| FreeTypeFont (path : string) (size : Z)
| DefaultFont.


(** A call to a collaborator, with its arguments. *)
Inductive event :=
| EvSubprocessRun (args : list string)
| EvPerformRequests (image_path : string)
| EvTranslate (source target : string) (text : pystr)
| EvRectangle (xy : float * float * float * float) (fill : string)
| EvText (xy : float * float) (text : pystr) (fill : string) (f : font)
| EvRemove (path : string)
| EvPrint (line : log_line).

Record world := mkWorld {
  files : gmap string (list byte);
  trace : list event;
}.

(** ** The collaborators *)

(** [subprocess.run(["screencapture", "-i", path], check=True)]: the call
    itself fails, or the process exits with a status after writing the file
    or not. *)
Inductive capture_outcome :=
| CaptureRaises (e : exn)
| CaptureExit (returncode : Z) (written : option (list byte)).

(** [rect.origin.x], [rect.origin.y], [rect.size.width], [rect.size.height]
    of a Vision bounding box. *)
Record CGRect := mkCGRect {
  origin_x : float;
  origin_y : float;
  size_width : float;
  size_height : float;
}.

(** A Vision text observation: its top candidate strings (at most one is
    asked for) and its bounding box. *)
Record observation := mkObservation {
  topCandidates : list pystr;
  boundingBox : CGRect;
}.

(** [handler.performRequests_error_] followed by [request.results()];
    [success] is the framework's answer, which the first reading takes
    line 142 to test ([Py._ocr_vision] tests the tuple PyObjC returns). *)
Inductive vision_outcome :=
| VisionRaises (e : exn)
| VisionDone (success : bool) (results : list observation).

(** What the collaborators do during one run.  [GoogleTranslator i] is the
    engine's answer to the call made by the pool's task [i], so two calls
    with the same text may be answered differently; [completion_order] is
    the order in which the pool's tasks finish. *)
Record env (raster : Type) := mkEnv {
  screencapture : capture_outcome;
  setRecognitionLanguages : option exn;
  performRequests : option (list byte) -> vision_outcome;
  GoogleTranslator : nat -> string -> string -> pystr -> outcome pystr;
  completion_order : list nat;
  os_remove_error : option exn;
  Image_open : option (list byte) -> outcome raster;
  ImageDraw_Draw : raster -> option exn;
  Image_size : raster -> Z * Z;
  ImageFont_truetype : string -> Z -> option exn;
  ImageFont_load_default : option exn;
  ImageDraw_rectangle :
    raster -> float * float * float * float -> string -> outcome raster;
  ImageDraw_text :
    raster -> float * float -> pystr -> string -> font -> outcome raster;
  Image_save : raster -> outcome (list byte);
  b64encode : list byte -> pystr;
}.
Arguments mkEnv {raster}.
Arguments screencapture {raster} _.
Arguments setRecognitionLanguages {raster} _.
Arguments performRequests {raster} _ _.
Arguments GoogleTranslator {raster} _ _ _ _ _.
Arguments completion_order {raster} _.
Arguments os_remove_error {raster} _.
Arguments Image_open {raster} _ _.
Arguments ImageDraw_Draw {raster} _ _.
Arguments Image_size {raster} _ _.
Arguments ImageFont_truetype {raster} _ _ _.
Arguments ImageFont_load_default {raster} _.
Arguments ImageDraw_rectangle {raster} _ _ _ _.
Arguments ImageDraw_text {raster} _ _ _ _ _ _.
Arguments Image_save {raster} _ _.
Arguments b64encode {raster} _ _.

(** ** Computations with effects *)

(** A Python call: it reads and changes the world, and returns or raises. *)
Definition M (A : Type) : Type := world -> outcome A * world.

Definition ret {A} (a : A) : M A := fun w => (Return a, w).

Definition raise {A} (e : exn) : M A := fun w => (Raise e, w).

Definition bind {A B} (m : M A) (k : A -> M B) : M B :=
  fun w =>
    match m w with
    | (Return a, w') => k a w'
    | (Raise e, w') => (Raise e, w')
    end.

(** [try: m  except Exception as e: handler e]. *)
Definition try_except {A} (m : M A) (handler : exn -> M A) : M A :=
  fun w =>
    match m w with
    | (Return a, w') => (Return a, w')
    | (Raise e, w') => handler e w'
    end.

(** A finished call's result taken as this call's own. *)
Definition lift {A} (o : outcome A) : M A :=
  match o with
  | Return a => ret a
  | Raise e => raise e
  end.

Notation "'do' x <- m ; k" := (bind m (fun x => k))
  (at level 10, x name, m at level 100, k at level 200).
Notation "'do' ' p <- m ; k" := (bind m (fun x => match x with p => k end))
  (at level 10, p pattern, m at level 100, k at level 200).
Notation "m ;; k" := (bind m (fun _ => k))
  (at level 100, k at level 200, right associativity).

Definition emit (ev : event) : M unit :=
  fun w => (Return tt, {| files := files w; trace := trace w ++ [ev] |}).

(** [print(line)] when the line can be written ([Py.print] is the [print]
    that may raise). *)
Definition print (line : log_line) : M unit := emit (EvPrint line).

(** [os.path.exists(path)]. *)
Definition os_path_exists (path : string) : M bool :=
  fun w => (Return (bool_decide (is_Some (files w !! path))), w).

(** The bytes of a file a collaborator is pointed at, when it exists. *)
Definition read_file (path : string) : M (option (list byte)) :=
  fun w => (Return (files w !! path), w).

Definition write_file (path : string) (content : list byte) : M unit :=
  fun w => (Return tt, {| files := <[path := content]> (files w); trace := trace w |}).

(** [os.remove(path)]: raises when there is no such file or when the
    system refuses. *)
Definition os_remove {raster} (E : env raster) (path : string) : M unit :=
  emit (EvRemove path);;
  do content <- read_file path;
  match content with
  | None => raise (Exception (str "No such file or directory"))
  | Some _ =>
      match os_remove_error E with
      | Some e => raise e
      | None =>
          fun w => (Return tt, {| files := delete path (files w); trace := trace w |})
      end
  end.

(** ** The [API] object *)

(** [self]: the path of the transient capture file and the font path found
    at start-up.  The worker pool [self._executor] is represented by the
    completion order of its tasks. *)
Record API := mkAPI {
  temp_image : string;
  _cached_font_path : option string;
}.

(** Lines 36-41. *)
Definition font_paths : list string :=
  [ "/System/Library/Fonts/Hiragino Sans GB.ttc";
    "/System/Library/Fonts/STHeiti Light.ttc";
    "/System/Library/Fonts/Cache/Hiragino Sans GB.ttc";
    "/Library/Fonts/Arial Unicode.ttf" ]%string.

(** Lines 42-45: the first candidate that exists. *)
Fixpoint first_existing (paths : list string) : M (option string) :=
  match paths with
  | [] => ret None
  | fp :: rest =>
      do found <- os_path_exists fp;
      if found then ret (Some fp) else first_existing rest
  end.

Definition _find_font : M (option string) := first_existing font_paths.

(** Lines 28-33: a failure to remove is swallowed. *)
Definition _cleanup {raster} (E : env raster) (self : API) : M unit :=
  do found <- os_path_exists (temp_image self);
  if found
  then try_except (os_remove E (temp_image self)) (fun _ => ret tt)
  else ret tt.

(** Lines 21-26. *)
Definition API__init__ {raster} (E : env raster) : M API :=
  do fp <- _find_font;
  let self := {| temp_image := "temp_capture.png"; _cached_font_path := fp |} in
  _cleanup E self;;
  ret self.

(** ** Translation of one fragment *)

(** A regular expression made of one character class: the ranges between
    the brackets. *)
Definition class_matches (ranges : list (N * N)) (c : N) : bool :=
  existsb (fun r => (fst r <=? c)%N && (c <=? snd r)%N) ranges.

(** [re.search] for such a class: some character of the text is in it. *)
Definition re_search (ranges : list (N * N)) (s : pystr) : bool :=
  existsb (class_matches ranges) s.

(** The class of line 50. *)
Definition japanese_class : list (N * N) :=
  [ (0x3040, 0x309F); (0x30A0, 0x30FF); (0x4E00, 0x9FFF) ]%N.

(** [GoogleTranslator(source=..., target=...).translate(s)] made by task
    [call]. *)
Definition translate {raster} (E : env raster) (call : nat)
    (source target : string) (s : pystr) : M pystr :=
  emit (EvTranslate source target s);;
  lift (GoogleTranslator E call source target s).

(** Lines 47-55.  [call] names the invocation (the pool's task) so that
    the engine's answer to it can be told from its answers to others. *)
Definition _translate_fragment {raster} (E : env raster) (call : nat)
    (s : pystr) : M pystr :=
  try_except
    (if re_search japanese_class s
     then ret s
     else translate E call "auto" "ja" s)
    (fun e => print (LogTranslationError s e);; ret s).

(** ** The worker pool *)

(** The futures of [executor.map]: a task is pending ([None]) or has
    finished with an outcome.  The tasks named in [order] finish in that
    order, each once; the bound of ten workers only restricts which orders
    can occur. *)
Fixpoint run_pool {A B} (fn : nat -> A -> M B) (args : list A)
    (order : list nat) (futures : list (option (outcome B))) (w : world)
    : list (option (outcome B)) * world :=
  match order with
  | [] => (futures, w)
  | i :: order' =>
      match args !! i, futures !! i with
      | Some a, Some None =>
          let '(r, w') := fn i a w in
          run_pool fn args order' (<[i := Some r]> futures) w'
      | _, _ => run_pool fn args order' futures w
      end
  end.

(** The results taken in the order of submission: [result()] of a finished
    task returns or raises what the task did; a task that is still pending
    is waited for, which runs it. *)
Fixpoint collect {A B} (fn : nat -> A -> M B) (i : nat) (args : list A)
    (futures : list (option (outcome B))) : M (list B) :=
  match args, futures with
  | a :: args', f :: futures' =>
      do r <- match f with
              | Some o => lift o
              | None => fn i a
              end;
      do rs <- collect fn (S i) args' futures';
      ret (r :: rs)
  | _, _ => ret []
  end.

(** [list(self._executor.map(fn, args))] when the tasks named in [order]
    finish in that order; every submitted task runs once. *)
Definition executor_map {A B} (fn : nat -> A -> M B) (args : list A)
    (order : list nat) : M (list B) :=
  fun w =>
    let '(futures, w') :=
      run_pool fn args order (replicate (length args) None) w in
    collect fn 0 args futures w'.

(** Lines 73-74. *)
Definition translate_all {raster} (E : env raster) (results : list fragment)
    : M (list pystr) :=
  let texts_to_translate := map text results in
  executor_map (_translate_fragment E) texts_to_translate (completion_order E).

(** ** OCR *)

(** Lines 146-161: one fragment per observation that has a candidate. *)
Fixpoint ocr_data (results : list observation) : list fragment :=
  match results with
  | [] => []
  | result :: rest =>
      match topCandidates result with
      | [] => ocr_data rest
      | candidate :: _ =>
          let rect := boundingBox result in
          {| text := candidate;
             box := {| box_x := origin_x rect;
                       box_y := origin_y rect;
                       box_w := size_width rect;
                       box_h := size_height rect |} |} :: ocr_data rest
      end
  end.

(** Lines 124-163. *)
Definition _ocr_vision {raster} (E : env raster) (image_path : string)
    : M (list fragment) :=
  try_except
    (match setRecognitionLanguages E with
     | Some e => raise e
     | None => ret tt
     end)
    (fun e => print (LogLanguagesWarning e));;
  emit (EvPerformRequests image_path);;
  do image <- read_file image_path;
  match performRequests E image with
  | VisionRaises e => raise e
  | VisionDone success results =>
      if negb success then ret [] else ret (ocr_data results)
  end.

(** ** Composition *)

(** [draw.rectangle(xy, fill=fill)]. *)
Definition rectangle {raster} (E : env raster) (img : raster)
    (xy : float * float * float * float) (fill : string) : M raster :=
  emit (EvRectangle xy fill);;
  lift (ImageDraw_rectangle E img xy fill).

(** [draw.text(xy, s, fill=fill, font=f)]. *)
Definition draw_text {raster} (E : env raster) (img : raster)
    (xy : float * float) (s : pystr) (fill : string) (f : font) : M raster :=
  emit (EvText xy s fill f);;
  lift (ImageDraw_text E img xy s fill f).

(** Line 98. *)
Definition padding : Z := 2.

(** Lines 88-103: the loop over [enumerate(results)] from index [i] on. *)
Fixpoint draw_fragments {raster} (E : env raster) (f : font)
    (width height : Z) (translated_texts : list pystr) (i : nat)
    (results : list fragment) (img : raster) : M raster :=
  match results with
  | [] => ret img
  | item :: rest =>
      do translated <- match translated_texts !! i with
                       | Some s => ret s
                       | None => raise (Exception (str "list index out of range"))
                       end;
      let r := toPixelRect_float (box item) width height in
      let x := px_x r in
      let y := px_y r in
      let w := px_w r in
      let h := px_h r in
      do img1 <- rectangle E img
                   (sub x (of_int padding), sub y (of_int padding),
                    add (add x w) (of_int padding),
                    add (add y h) (of_int padding))
                   "white";
      do img2 <- draw_text E img1 (x, y) translated "black" f;
      draw_fragments E f width height translated_texts (S i) rest img2
  end.

(** Lines 83-86. *)
Definition load_font {raster} (E : env raster) (self : API) : M font :=
  match _cached_font_path self with
  | Some path =>
      match ImageFont_truetype E path 14 with
      | Some e => raise e
      | None => ret (FreeTypeFont path 14)
      end
  | None =>
      match ImageFont_load_default E with
      | Some e => raise e
      | None => ret DefaultFont
      end
  end.

(** Lines 78-108: the image is opened, drawn on, and encoded. *)
Definition process_image {raster} (E : env raster) (self : API)
    (results : list fragment) (translated_texts : list pystr) : M pystr :=
  do content <- read_file (temp_image self);
  do img <- lift (Image_open E content);
  match ImageDraw_Draw E img with Some e => raise e | None => ret tt end;;
  let '(width, height) := Image_size E img in
  do f <- load_font E self;
  do img' <- draw_fragments E f width height translated_texts 0 results img;
  do buf <- lift (Image_save E img');
  ret (b64encode E buf).

(** ** The pipeline *)

(** Line 60. *)
Definition subprocess_run_check {raster} (E : env raster)
    (args : list string) (output : string) : M unit :=
  emit (EvSubprocessRun args);;
  match screencapture E with
  | CaptureRaises e => raise e
  | CaptureExit returncode written =>
      match written with
      | Some content => write_file output content
      | None => ret tt
      end;;
      if returncode =? 0 then ret tt else raise (CalledProcessError returncode)
  end.

(** The dicts the pipeline returns. *)
Definition error_result (msg : pystr) : gmap string pystr := {[ "error" := msg ]}.
Definition image_result (uri : pystr) : gmap string pystr := {[ "image" := uri ]}.

(** Lines 59-116: the body of the [try]. *)
Definition pipeline_body {raster} (E : env raster) (self : API)
    : M (gmap string pystr) :=
  subprocess_run_check E ["screencapture"; "-i"; temp_image self]%string
    (temp_image self);;
  do captured <- os_path_exists (temp_image self);
  if negb captured then ret (error_result (str "Canceled or failed to capture"))
  else
    do results <- _ocr_vision E (temp_image self);
    print (LogOcrFound (length results));;
    match results with
    | [] => ret (error_result (str "No text detected"))
    | _ :: _ =>
        do translated_texts <- translate_all E results;
        do img_data <- process_image E self results translated_texts;
        do present <- os_path_exists (temp_image self);
        (if present then os_remove E (temp_image self) else ret tt);;
        ret (image_result (str "data:image/png;base64," ++ img_data))
    end.

(** Lines 117-122: the two handlers. *)
Definition pipeline_handler (e : exn) : M (gmap string pystr) :=
  match e with
  | CalledProcessError _ => ret (error_result (str "Capture cancelled"))
  | Exception msg => print (LogTraceback e);; ret (error_result msg)
  end.

(** Lines 57-122. *)
Definition capture_and_translate {raster} (E : env raster) (self : API)
    : M (gmap string pystr) :=
  try_except (pipeline_body E self) pipeline_handler.

(** * The vocabulary of the statements *)

(** The world after more calls to collaborators were recorded. *)
Definition log (w : world) (evs : list event) : world :=
  {| files := files w; trace := trace w ++ evs |}.

(** What [_translate_fragment] returns for the text [s] in task [i]: the
    text itself when it has a character of the class or when the engine
    raises, and the engine's answer otherwise. *)
Definition translation_of {raster} (E : env raster) (i : nat) (s : pystr) : pystr :=
  if re_search japanese_class s then s
  else match GoogleTranslator E i "auto" "ja" s with
       | Return t => t
       | Raise _ => s
       end.

(** The calls it makes on the way. *)
Definition translation_events {raster} (E : env raster) (i : nat) (s : pystr)
    : list event :=
  if re_search japanese_class s then []
  else EvTranslate "auto" "ja" s ::
       match GoogleTranslator E i "auto" "ja" s with
       | Return _ => []
       | Raise e => [EvPrint (LogTranslationError s e)]
       end.

(** Every finished future of the pool holds the value of its own task:
    [value i a] is what task [i] returns on the argument [a]. *)
Definition futures_ok {A B} (value : nat -> A -> B) (offset : nat) (l : list A)
    (futures : list (option (outcome B))) : Prop :=
  length futures = length l /\
  forall k o, futures !! k = Some (Some o) ->
              exists a, l !! k = Some a /\ o = Return (value (offset + k)%nat a).

(** Every recorded event was made by some task of the batch: [events i a]
    are the calls task [i] makes on the argument [a]. *)
Definition from_tasks {A} (events : nat -> A -> list event) (args : list A)
    (evs : list event) : Prop :=
  Forall (fun ev => exists i a, args !! i = Some a /\ In ev (events i a)) evs.

(** The environment [E] with the pool's tasks finishing in [order]. *)
Definition with_completion_order {raster} (E : env raster) (order : list nat)
    : env raster :=
  {| screencapture := screencapture E;
     setRecognitionLanguages := setRecognitionLanguages E;
     performRequests := performRequests E;
     GoogleTranslator := GoogleTranslator E;
     completion_order := order;
     os_remove_error := os_remove_error E;
     Image_open := Image_open E;
     ImageDraw_Draw := ImageDraw_Draw E;
     Image_size := Image_size E;
     ImageFont_truetype := ImageFont_truetype E;
     ImageFont_load_default := ImageFont_load_default E;
     ImageDraw_rectangle := ImageDraw_rectangle E;
     ImageDraw_text := ImageDraw_text E;
     Image_save := Image_save E;
     b64encode := b64encode E |}.

(** The environment [E] with another capture, OCR or translation engine. *)
Definition with_screencapture {raster} (E : env raster) (c : capture_outcome) : env raster :=
  {| screencapture := c;
     setRecognitionLanguages := setRecognitionLanguages E;
     performRequests := performRequests E;
     GoogleTranslator := GoogleTranslator E;
     completion_order := completion_order E;
     os_remove_error := os_remove_error E;
     Image_open := Image_open E;
     ImageDraw_Draw := ImageDraw_Draw E;
     Image_size := Image_size E;
     ImageFont_truetype := ImageFont_truetype E;
     ImageFont_load_default := ImageFont_load_default E;
     ImageDraw_rectangle := ImageDraw_rectangle E;
     ImageDraw_text := ImageDraw_text E;
     Image_save := Image_save E;
     b64encode := b64encode E |}.

Definition with_performRequests {raster} (E : env raster)
    (v : option (list byte) -> vision_outcome) : env raster :=
  {| screencapture := screencapture E;
     setRecognitionLanguages := setRecognitionLanguages E;
     performRequests := v;
     GoogleTranslator := GoogleTranslator E;
     completion_order := completion_order E;
     os_remove_error := os_remove_error E;
     Image_open := Image_open E;
     ImageDraw_Draw := ImageDraw_Draw E;
     Image_size := Image_size E;
     ImageFont_truetype := ImageFont_truetype E;
     ImageFont_load_default := ImageFont_load_default E;
     ImageDraw_rectangle := ImageDraw_rectangle E;
     ImageDraw_text := ImageDraw_text E;
     Image_save := Image_save E;
     b64encode := b64encode E |}.

Definition with_GoogleTranslator {raster} (E : env raster)
    (g : nat -> string -> string -> pystr -> outcome pystr) : env raster :=
  {| screencapture := screencapture E;
     setRecognitionLanguages := setRecognitionLanguages E;
     performRequests := performRequests E;
     GoogleTranslator := g;
     completion_order := completion_order E;
     os_remove_error := os_remove_error E;
     Image_open := Image_open E;
     ImageDraw_Draw := ImageDraw_Draw E;
     Image_size := Image_size E;
     ImageFont_truetype := ImageFont_truetype E;
     ImageFont_load_default := ImageFont_load_default E;
     ImageDraw_rectangle := ImageDraw_rectangle E;
     ImageDraw_text := ImageDraw_text E;
     Image_save := Image_save E;
     b64encode := b64encode E |}.

(** The translated texts, index by index. *)
Definition translations {raster} (E : env raster) (results : list fragment)
    : list pystr :=
  imap (translation_of E) (map text results).

(** The corners of the rectangle grown by the padding on every side. *)
Definition padded_corners (r : PixelRect float) : float * float * float * float :=
  (px_x r - 2, px_y r - 2, px_x r + px_w r + 2, px_y r + px_h r + 2)%float.

(** The two PIL calls made for one fragment: the fill, then the text. *)
Definition fragment_events (f : font) (W H : Z) (item : fragment) (s : pystr)
    : list event :=
  let r := toPixelRect_float (box item) W H in
  [ EvRectangle (padded_corners r) "white";
    EvText (px_x r, px_y r) s "black" f ].


(** A character of one of the three blocks of line 50. *)
Definition in_target_script (c : N) : Prop :=
  (0x3040 <= c <= 0x309F)%N \/ (0x30A0 <= c <= 0x30FF)%N \/
  (0x4E00 <= c <= 0x9FFF)%N.

(** Every value [m] returns satisfies [Q]. *)
Definition returns {A} (Q : A -> Prop) (m : M A) : Prop :=
  forall w a w', m w = (Return a, w') -> Q a.

(** [m] only appends to the trace, and every event it appends satisfies
    [P]. *)
Definition records {A} (P : event -> Prop) (m : M A) : Prop :=
  forall w, exists evs, trace (snd (m w)) = trace w ++ evs /\ Forall P evs.

(** A translation call asks for source "auto" and target "ja"; any other
    event qualifies. *)
Definition addressed (ev : event) : Prop :=
  match ev with
  | EvTranslate source target _ => source = "auto"%string /\ target = "ja"%string
  | _ => True
  end.

(** The two shapes of the dict [capture_and_translate] returns. *)
Definition is_result {raster} (E : env raster) (r : gmap string pystr) : Prop :=
  (exists png, r = image_result (str "data:image/png;base64," ++ b64encode E png)) \/
  (exists msg, r = error_result msg).

(** The world after the capture process has run. *)
Definition after_capture (self : API) (written : option (list byte)) (w : world)
    : world :=
  {| files := match written with
              | Some content => <[temp_image self := content]> (files w)
              | None => files w
              end;
     trace := trace w ++
              [EvSubprocessRun ["screencapture"; "-i"; temp_image self]%string] |}.

(** The calls [_ocr_vision] records. *)
Definition ocr_events {raster} (E : env raster) (image_path : string) : list event :=
  match setRecognitionLanguages E with
  | Some e => [EvPrint (LogLanguagesWarning e)]
  | None => []
  end ++ [EvPerformRequests image_path].

(** Every return of [m] leaves a value and a world that satisfy [Q]. *)
Definition ensures {A} (Q : A -> world -> Prop) (m : M A) : Prop :=
  forall w a w', m w = (Return a, w') -> Q a w'.

(** ** A concrete environment *)

Module Sample.

(** A canvas that remembers what was drawn on it, latest first. *)
Record canvas := mkCanvas {
  cv_size : Z * Z;
  cv_drawn : list event;
}.





Definition draw (img : canvas) (ev : event) : canvas :=
  {| cv_size := cv_size img; cv_drawn := ev :: cv_drawn img |}.

(** The bytes of a capture, and of an encoded image. *)
Definition shot : list byte := [x89; x50; x4e; x47]%byte.

Definition png_of (img : canvas) : list byte := shot.

Definition hello : pystr := str "Hello".
Definition konnichiwa : pystr := [0x3053; 0x3093; 0x306B; 0x3061; 0x306F]%N.

(** A capture of 100 by 100 pixels with one fragment, a translation engine
    that answers, and a font found at start-up. *)
Definition E0 : env canvas :=
  {| screencapture := CaptureExit 0 (Some shot);
     setRecognitionLanguages := None;
     performRequests := fun _ =>
       VisionDone true
         [ {| topCandidates := [hello];
              boundingBox := mkCGRect 0.1 0.8 0.3 0.1 |} ];
     GoogleTranslator := fun _ _ _ _ => Return konnichiwa;
     completion_order := [0%nat];
     os_remove_error := None;
     Image_open := fun content =>
       match content with
       | Some _ => Return {| cv_size := (100, 100); cv_drawn := [] |}
       | None => Raise (Exception (str "No such file or directory"))
       end;
     ImageDraw_Draw := fun _ => None;
     Image_size := cv_size;
     ImageFont_truetype := fun _ _ => None;
     ImageFont_load_default := None;
     ImageDraw_rectangle := fun img xy fill => Return (draw img (EvRectangle xy fill));
     ImageDraw_text := fun img xy s fill f => Return (draw img (EvText xy s fill f));
     Image_save := fun img => Return (png_of img);
     b64encode := fun _ => str "iVBORw==" |}.

Definition self0 : API :=
  {| temp_image := "temp_capture.png";
     _cached_font_path := Some "/System/Library/Fonts/Hiragino Sans GB.ttc"%string |}.

(** No file on disk, nothing recorded yet. *)
Definition w0 : world := {| files := ∅; trace := [] |}.

End Sample.

(** ** Scenarios *)

Module Scenario.
Import Sample.

(** The OCR engine succeeds and finds no region. *)
Definition E_no_text : env canvas :=
  with_performRequests E0 (fun _ => VisionDone true []).

(** The capture process exits with status 1 and writes nothing. *)
Definition E_cancelled : env canvas :=
  with_screencapture E0 (CaptureExit 1 None).

(** The capture process exits with status 0 and writes nothing. *)
Definition E_aborted : env canvas :=
  with_screencapture E0 (CaptureExit 0 None).


(** Two fragments with the same text, the second over the first. *)
Definition twice : list fragment :=
  [ {| text := hello; box := mkBox 0.1 0.8 0.3 0.1 |};
    {| text := hello; box := mkBox 0.2 0.8 0.3 0.1 |} ]%float.

(** The engine raises on the call of task 0 and answers the others. *)
Definition E_first_call_fails : env canvas :=
  with_GoogleTranslator E0
    (fun i _ _ _ =>
       match i with
       | O => Raise (Exception (str "Request exception"))
       | S _ => Return konnichiwa
       end).


(** The disk at start-up: a font, and a capture left by an earlier
    process. *)
Definition boot : world :=
  {| files := <[ "temp_capture.png"%string := shot ]>
                (<[ "/System/Library/Fonts/Hiragino Sans GB.ttc"%string := [] ]> ∅);
     trace := [] |}.

(** Two different texts, and an engine that answers each task with the
    text it was given, doubled. *)
Definition two_words : list fragment :=
  [ {| text := str "Hello"; box := mkBox 0.1 0.8 0.3 0.1 |};
    {| text := str "World"; box := mkBox 0.1 0.6 0.3 0.1 |} ]%float.

Definition E_echo : env canvas :=
  with_GoogleTranslator E0 (fun _ _ _ s => Return (s ++ s)).

End Scenario.

(** ** Vocabulary of the further properties *)

(** The fragment [_ocr_vision] makes of an observation that has a
    candidate. *)
Definition fragment_of (result : observation) : fragment :=
  {| text := hd [] (topCandidates result);
     box := {| box_x := origin_x (boundingBox result);
               box_y := origin_y (boundingBox result);
               box_w := size_width (boundingBox result);
               box_h := size_height (boundingBox result) |} |}.

(** The observation has at least one candidate. *)
Definition has_candidate (result : observation) : bool :=
  match topCandidates result with
  | [] => false
  | _ :: _ => true
  end.

(** The calls still to come from the tasks of the pool that are pending,
    in the order of submission. *)
Fixpoint pending {A B} (events : nat -> A -> list event) (i : nat) (l : list A)
    (futures : list (option (outcome B))) : list event :=
  match l, futures with
  | a :: l', f :: futures' =>
      match f with
      | None => events i a
      | Some _ => []
      end ++ pending events (S i) l' futures'
  | _, _ => []
  end.

(** The event is a call to the translation engine. *)
Definition is_translate (ev : event) : bool :=
  match ev with
  | EvTranslate _ _ _ => true
  | _ => false
  end.

(** The stage of a run a call belongs to: capture, OCR, the count printed
    after it, translation, drawing, removal of the capture, and the
    traceback of the handler. *)
Definition phase (ev : event) : nat :=
  match ev with
  | EvSubprocessRun _ => 0
  | EvPerformRequests _ => 1
  | EvPrint (LogLanguagesWarning _) => 1
  | EvPrint (LogOcrFound _) => 2
  | EvTranslate _ _ _ => 3
  | EvPrint (LogTranslationError _ _) => 3
  | EvRectangle _ _ => 4
  | EvText _ _ _ _ => 4
  | EvRemove _ => 5
  | EvPrint (LogTraceback _) => 6
  end%nat.

(** The events come stage after stage: none is followed by an event of an
    earlier stage. *)
Definition in_stage_order (evs : list event) : Prop :=
  StronglySorted (fun a b => (phase a <= phase b)%nat) evs.

(** [m] appends events of the stages [lo] to [hi], in stage order. *)
Definition staged {A} (lo hi : nat) (m : M A) : Prop :=
  forall w, exists evs,
    trace (snd (m w)) = trace w ++ evs /\
    Forall (fun ev => (lo <= phase ev <= hi)%nat) evs /\
    in_stage_order evs.




Module More.
Import Sample.

(** The OCR call itself raises. *)
Definition E_ocr_raises : env canvas :=
  with_performRequests E0
    (fun _ => VisionRaises (Exception (str "Vision request failed"))).


(** The capture program cannot be started. *)
Definition E_no_screencapture : env canvas :=
  with_screencapture E0
    (CaptureRaises (Exception (str "No such file or directory: 'screencapture'"))).

End More.

(** ** Vocabulary of the flip identity *)







(** * The run when printing can fail, calls can be interrupted, and the
      recognition answers as PyObjC does *)

(** The definitions above read the program under three assumptions: a
    [print] does not raise; every exception raised is an instance of
    [Exception], so that [except Exception] catches it; and
    [performRequests_error_] answers with a truth value, after which
    [request.results()] is a list.  The module [Py] reads lines 47-163 again
    without them.

    - [print] writes to [sys.stdout] and raises when the stream refuses
      (closed pipe, character outside its encoding).  The prints of lines
      54, 121 and 138 stand inside [except] blocks, where nothing catches
      what they raise.
    - [KeyboardInterrupt] and [SystemExit] are not instances of
      [Exception]: [except Exception] lets them through, and so does the
      pool, whose [result()] re-raises whatever a task raised.  They are
      modelled at the two calls that block: the interactive capture and
      the network call of a task.
    - For a method with an [NSError **] out-argument PyObjC returns the
      tuple [(ok, error)]; a tuple of two items is true whatever [ok] is,
      so the test of line 142 does not fire.  Vision leaves
      [request.results()] nil when the request failed, and the [for] of
      line 147 over [None] raises [TypeError]. *)

Module Py.

(** What a [raise] carries: an instance of [Exception], or an exception
    that is only a [BaseException]. *)
Inductive raised :=
| Exc (e : exn)
| BaseExc (name : pystr).

Inductive result (A : Type) :=
| Ok (a : A)
| Err (r : raised).
Arguments Ok {A} _.
Arguments Err {A} _.

(** The collaborators of [env], and what was assumed away about them:
    what a [print] of a line raises, the interrupt that ends the capture,
    and the exception outside [Exception] that ends the engine call of a
    task. *)
Record host (raster : Type) := mkHost {
  base : env raster;
  print_error : log_line -> option exn;
  capture_interrupt : option pystr;
  translate_base_exception : nat -> option pystr;
}.
Arguments mkHost {raster}.
Arguments base {raster} _.
Arguments print_error {raster} _ _.
Arguments capture_interrupt {raster} _.
Arguments translate_base_exception {raster} _ _.

Definition action (A : Type) : Type := world -> result A * world.

Definition ret {A} (a : A) : action A := fun w => (Ok a, w).

Definition raise {A} (r : raised) : action A := fun w => (Err r, w).

Definition bind {A B} (m : action A) (k : A -> action B) : action B :=
  fun w =>
    match m w with
    | (Ok a, w') => k a w'
    | (Err r, w') => (Err r, w')
    end.

(** [try: m  except Exception as e: handler e]: an exception that is not an
    instance of [Exception] is not caught. *)
Definition try_except {A} (m : action A) (handler : exn -> action A) : action A :=
  fun w =>
    match m w with
    | (Ok a, w') => (Ok a, w')
    | (Err (Exc e), w') => handler e w'
    | (Err (BaseExc name), w') => (Err (BaseExc name), w')
    end.

(** An outcome of the first reading, which raises instances of [Exception]
    only. *)
Definition up {A} (o : outcome A) : result A :=
  match o with
  | Return a => Ok a
  | Raise e => Err (Exc e)
  end.

(** A computation of the first reading, taken over as it is: the code it
    stands for neither prints nor makes one of the interruptible calls. *)
Definition of_M {A} (m : M A) : action A :=
  fun w => let '(o, w') := m w in (up o, w').

(** A finished call's result taken as this call's own. *)
Definition lift {A} (o : result A) : action A := fun w => (o, w).

Declare Scope py_scope.
Delimit Scope py_scope with py.
Notation "'do' x <- m ; k" := (bind m (fun x => k)) : py_scope.
Notation "m ;; k" := (bind m (fun _ => k)) : py_scope.
Local Open Scope py_scope.

(** [print(line)]: the line is written, unless the stream raises. *)
Definition print {raster} (H : host raster) (line : log_line) : action unit :=
  match print_error H line with
  | Some e => raise (Exc e)
  | None => of_M (emit (EvPrint line))
  end.

(** Line 60: the interrupt, when there is one, ends the call before the
    process has written anything. *)
Definition subprocess_run_check {raster} (H : host raster)
    (args : list string) (output : string) : action unit :=
  match capture_interrupt H with
  | Some name => of_M (emit (EvSubprocessRun args));; raise (BaseExc name)
  | None => of_M (subprocess_run_check (base H) args output)
  end.

(** Line 52, made by task [call]: the exception outside [Exception], when
    there is one, ends the call. *)
Definition translate {raster} (H : host raster) (call : nat)
    (source target : string) (s : pystr) : action pystr :=
  match translate_base_exception H call with
  | Some name => of_M (emit (EvTranslate source target s));; raise (BaseExc name)
  | None => of_M (translate (base H) call source target s)
  end.

(** Lines 47-55. *)
Definition _translate_fragment {raster} (H : host raster) (call : nat)
    (s : pystr) : action pystr :=
  try_except
    (if re_search japanese_class s
     then ret s
     else translate H call "auto" "ja" s)
    (fun e => print H (LogTranslationError s e);; ret s).

(** The pool of [executor.map], as [run_pool] and [collect] above, for
    tasks that may raise anything: [result()] of a finished task re-raises
    what the task raised, and the first task in the order of submission
    that raised ends the [list(...)] of line 74. *)
Fixpoint run_pool {A B} (fn : nat -> A -> action B) (args : list A)
    (order : list nat) (futures : list (option (result B))) (w : world)
    : list (option (result B)) * world :=
  match order with
  | [] => (futures, w)
  | i :: order' =>
      match args !! i, futures !! i with
      | Some a, Some None =>
          let '(r, w') := fn i a w in
          run_pool fn args order' (<[i := Some r]> futures) w'
      | _, _ => run_pool fn args order' futures w
      end
  end.

Fixpoint collect {A B} (fn : nat -> A -> action B) (i : nat) (args : list A)
    (futures : list (option (result B))) : action (list B) :=
  match args, futures with
  | a :: args', f :: futures' =>
      do r <- match f with
              | Some o => lift o
              | None => fn i a
              end;
      do rs <- collect fn (S i) args' futures';
      ret (r :: rs)
  | _, _ => ret []
  end.

Definition executor_map {A B} (fn : nat -> A -> action B) (args : list A)
    (order : list nat) : action (list B) :=
  fun w =>
    let '(futures, w') :=
      run_pool fn args order (replicate (length args) None) w in
    collect fn 0 args futures w'.

(** Lines 73-74. *)
Definition translate_all {raster} (H : host raster) (results : list fragment)
    : action (list pystr) :=
  let texts_to_translate := map text results in
  executor_map (_translate_fragment H) texts_to_translate
    (completion_order (base H)).

(** [bool(t)] for a tuple [t] of two items: a tuple is false only when it
    is empty. *)
Definition tuple_is_true {A B} (t : A * B) : bool := true.

(** [request.results()] after the request: nil when it failed. *)
Definition request_results (ok : bool) (observations : list observation)
    : option (list observation) :=
  if ok then Some observations else None.

(** Lines 124-163.  [success] is the tuple PyObjC returns: the framework's
    [BOOL], and the [NSError] when there is one. *)
Definition _ocr_vision {raster} (H : host raster) (image_path : string)
    : action (list fragment) :=
  try_except
    (match setRecognitionLanguages (base H) with
     | Some e => raise (Exc e)
     | None => ret tt
     end)
    (fun e => print H (LogLanguagesWarning e));;
  of_M (emit (EvPerformRequests image_path));;
  do image <- of_M (read_file image_path);
  match performRequests (base H) image with
  | VisionRaises e => raise (Exc e)
  | VisionDone ok observations =>
      let success := (ok, if ok then None else Some (str "NSError")) in
      if negb (tuple_is_true success) then ret []
      else
        match request_results ok observations with
        | None => raise (Exc (Exception (str "'NoneType' object is not iterable")))
        | Some results => ret (ocr_data results)
        end
  end.

(** Lines 59-116: the body of the [try]. *)
Definition pipeline_body {raster} (H : host raster) (self : API)
    : action (gmap string pystr) :=
  subprocess_run_check H ["screencapture"; "-i"; temp_image self]%string
    (temp_image self);;
  do captured <- of_M (os_path_exists (temp_image self));
  if negb captured then ret (error_result (str "Canceled or failed to capture"))
  else
    do results <- _ocr_vision H (temp_image self);
    print H (LogOcrFound (length results));;
    match results with
    | [] => ret (error_result (str "No text detected"))
    | _ :: _ =>
        do translated_texts <- translate_all H results;
        do img_data <- of_M (process_image (base H) self results translated_texts);
        do present <- of_M (os_path_exists (temp_image self));
        (if present then of_M (os_remove (base H) (temp_image self)) else ret tt);;
        ret (image_result (str "data:image/png;base64," ++ img_data))
    end.

(** Lines 117-122: the two handlers; the traceback is printed inside the
    second. *)
Definition pipeline_handler {raster} (H : host raster) (e : exn)
    : action (gmap string pystr) :=
  match e with
  | CalledProcessError _ => ret (error_result (str "Capture cancelled"))
  | Exception msg => print H (LogTraceback e);; ret (error_result msg)
  end.

(** Lines 57-122. *)
Definition capture_and_translate {raster} (H : host raster) (self : API)
    : action (gmap string pystr) :=
  try_except (pipeline_body H self) (pipeline_handler H).

(** The host under the three assumptions: every line prints and no call
    is interrupted. *)
Definition assumed {raster} (E : env raster) : host raster :=
  {| base := E;
     print_error := fun _ => None;
     capture_interrupt := None;
     translate_base_exception := fun _ => None |}.

(** No engine call of the batch ends in an exception outside
    [Exception], and the error line of every engine call of the batch that
    raises can be printed. *)
Definition failures_are_logged {raster} (H : host raster) (results : list fragment)
    : Prop :=
  forall i item, results !! i = Some item ->
    re_search japanese_class (text item) = false ->
    translate_base_exception H i = None /\
    forall e, GoogleTranslator (base H) i "auto" "ja" (text item) = Raise e ->
              print_error H (LogTranslationError (text item) e) = None.

(** No call of the run ends in an exception outside [Exception]. *)
Definition uninterrupted {raster} (H : host raster) : Prop :=
  capture_interrupt H = None /\ forall i, translate_base_exception H i = None.

(** The warning of line 138 can be printed when it is due. *)
Definition warning_prints {raster} (H : host raster) : Prop :=
  forall e, setRecognitionLanguages (base H) = Some e ->
            print_error H (LogLanguagesWarning e) = None.

(** Whatever [m] raises is an instance of [Exception]. *)
Definition catchable {A} (m : action A) : Prop :=
  forall w r w', m w = (Err r, w') -> exists e, r = Exc e.

(** Every value [m] returns satisfies [Q]. *)
Definition returns {A} (Q : A -> Prop) (m : action A) : Prop :=
  forall w a w', m w = (Ok a, w') -> Q a.

(** The futures of the first reading, as futures of this one. *)
Definition ups {B} (futures : list (option (outcome B)))
    : list (option (result B)) :=
  fmap (M := list) (fmap (M := option) up) futures.

(** The [TypeError] of line 147. *)
Definition not_iterable : exn := Exception (str "'NoneType' object is not iterable").

(** The host [H] with the pool's tasks finishing in [order]. *)
Definition with_order {raster} (H : host raster) (order : list nat) : host raster :=
  {| base := with_completion_order (base H) order;
     print_error := print_error H;
     capture_interrupt := capture_interrupt H;
     translate_base_exception := translate_base_exception H |}.

(** Every line of the run can be printed. *)
Definition prints {raster} (H : host raster) : Prop :=
  forall line, print_error H line = None.




(** The recognition never reports a failed request. *)
Definition recognition_succeeds {raster} (E : env raster) : Prop :=
  forall image ok observations,
    performRequests E image = VisionDone ok observations -> ok = true.

End Py.

Module PyScenario.
Import Sample Scenario More.

(** [sys.stdout] is closed: every [print] raises. *)
Definition closed_stdout (line : log_line) : option exn :=
  Some (Exception (str "I/O operation on closed file."))%string.

(** The engine raises on the call of task 0, and the error line cannot be
    printed. *)
Definition H_unlogged_failure : Py.host canvas :=
  {| Py.base := E_first_call_fails;
     Py.print_error := closed_stdout;
     Py.capture_interrupt := None;
     Py.translate_base_exception := fun _ => None |}.

(** The engine call of task 0 ends in a [SystemExit]. *)
Definition H_exiting_call : Py.host canvas :=
  {| Py.base := E0;
     Py.print_error := fun _ => None;
     Py.capture_interrupt := None;
     Py.translate_base_exception := fun i =>
       match i with
       | O => Some (str "SystemExit")
       | S _ => None
       end |}.

(** The recognition call raises, and the traceback cannot be printed. *)
Definition H_unprinted_traceback : Py.host canvas :=
  {| Py.base := E_ocr_raises;
     Py.print_error := closed_stdout;
     Py.capture_interrupt := None;
     Py.translate_base_exception := fun _ => None |}.

(** The interactive capture is interrupted. *)
Definition H_interrupted_capture : Py.host canvas :=
  {| Py.base := E0;
     Py.print_error := fun _ => None;
     Py.capture_interrupt := Some (str "KeyboardInterrupt");
     Py.translate_base_exception := fun _ => None |}.



(** The recognition languages cannot be set. *)
Definition H_no_languages : Py.host canvas :=
  Py.assumed
    {| screencapture := screencapture E0;
       setRecognitionLanguages := Some (Exception (str "unsupported language"));
       performRequests := performRequests E0;
       GoogleTranslator := GoogleTranslator E0;
       completion_order := completion_order E0;
       os_remove_error := os_remove_error E0;
       Image_open := Image_open E0;
       ImageDraw_Draw := ImageDraw_Draw E0;
       Image_size := Image_size E0;
       ImageFont_truetype := ImageFont_truetype E0;
       ImageFont_load_default := ImageFont_load_default E0;
       ImageDraw_rectangle := ImageDraw_rectangle E0;
       ImageDraw_text := ImageDraw_text E0;
       Image_save := Image_save E0;
       b64encode := b64encode E0 |}.

End PyScenario.

(** * Properties *)

(** ** Worlds that differ by appended events *)

Lemma log_nil w : log w [] = w.
Proof. destruct w as [fs tr]. unfold log. simpl. by rewrite app_nil_r. Qed.

Lemma log_log w evs1 evs2 : log (log w evs1) evs2 = log w (evs1 ++ evs2).
Proof. unfold log. simpl. by rewrite app_assoc. Qed.

Lemma files_log w evs : files (log w evs) = files w.
Proof. reflexivity. Qed.

Lemma trace_log w evs : trace (log w evs) = trace w ++ evs.
Proof. reflexivity. Qed.

Lemma emit_log ev w : emit ev w = (Return tt, log w [ev]).
Proof. reflexivity. Qed.

(** ** The coordinate mapping *)










(** ** One fragment *)

Lemma _translate_fragment_run {raster} (E : env raster) i s w :
  _translate_fragment E i s w =
  (Return (translation_of E i s), log w (translation_events E i s)).
Proof.
  unfold _translate_fragment, translation_of, translation_events, try_except.
  destruct (re_search japanese_class s) eqn:Hre.
  - unfold ret. by rewrite log_nil.
  - unfold translate, bind, print, emit.
    destruct (GoogleTranslator E i "auto" "ja" s) as [t|e]; simpl.
    + reflexivity.
    + unfold log. simpl. by rewrite <- app_assoc.
Qed.

(** ** The pool returns results in the order of submission *)

Section Pool.
Context {A B : Type}.
Variable fn : nat -> A -> M B.
Variable value : nat -> A -> B.
Variable events : nat -> A -> list event.
Variable args : list A.

(** The task function returns in every world, and its value does not
    depend on the world it runs in. *)
Hypothesis fn_run : forall i a w, fn i a w = (Return (value i a), log w (events i a)).

Lemma from_tasks_app evs1 evs2 :
  from_tasks events args evs1 -> from_tasks events args evs2 -> from_tasks events args (evs1 ++ evs2).
Proof. unfold from_tasks. intros. by apply Forall_app. Qed.

Lemma from_tasks_events i a : args !! i = Some a -> from_tasks events args (events i a).
Proof.
  intros Ha. unfold from_tasks. apply Forall_forall. intros ev Hev.
  exists i, a. split; [done|]. by apply list_elem_of_In.
Qed.

Lemma futures_ok_insert i a futures :
  futures_ok value 0 args futures -> args !! i = Some a ->
  futures_ok value 0 args (<[i := Some (Return (value i a))]> futures).
Proof.
  intros [Hlen Hok] Ha. split.
  - by rewrite length_insert.
  - intros k o Hk. destruct (decide (i = k)) as [->|Hne].
    + rewrite list_lookup_insert_eq in Hk.
      * injection Hk as <-. eauto.
      * rewrite Hlen. by eapply lookup_lt_Some.
    + rewrite list_lookup_insert_ne in Hk by done. by apply Hok.
Qed.

Lemma run_pool_spec order : forall futures w,
  futures_ok value 0 args futures ->
  exists futures' evs,
    run_pool fn args order futures w = (futures', log w evs) /\
    futures_ok value 0 args futures' /\ from_tasks events args evs.
Proof.
  induction order as [|i order IH]; intros futures w Hok; simpl.
  - exists futures, []. rewrite log_nil. repeat split; try apply Hok.
    by apply Forall_nil.
  - destruct (args !! i) as [a|] eqn:Ha; [|by apply IH].
    destruct (futures !! i) as [[o|]|] eqn:Hf; try by apply IH.
    rewrite fn_run.
    destruct (IH (<[i := Some (Return (value i a))]> futures)
                (log w (events i a))) as (futures' & evs & Hrun & Hok' & Hev).
    { by apply futures_ok_insert. }
    exists futures', (events i a ++ evs). rewrite Hrun, log_log.
    repeat split; try apply Hok'.
    apply from_tasks_app; [by eapply from_tasks_events | done].
Qed.

Lemma collect_spec : forall (l : list A) offset futures w,
  (forall k a, l !! k = Some a -> args !! (offset + k)%nat = Some a) ->
  futures_ok value offset l futures ->
  exists evs,
    collect fn offset l futures w =
      (Return (imap (fun k a => value (offset + k) a) l), log w evs) /\
    from_tasks events args evs.
Proof.
  induction l as [|a l IH]; intros offset futures w Hargs [Hlen Hok].
  - exists []. destruct futures; simpl; rewrite log_nil;
      (split; [reflexivity | by apply Forall_nil]).
  - destruct futures as [|f futures]; [done|]. simpl in Hlen.
    assert (Hl : forall k a', l !! k = Some a' -> args !! (S offset + k)%nat = Some a').
    { intros k a' Hk. specialize (Hargs (S k) a' Hk).
      by replace (S offset + k)%nat with (offset + S k)%nat by lia. }
    assert (Hfs : futures_ok value (S offset) l futures).
    { split; [lia|]. intros k o Hk. destruct (Hok (S k) o Hk) as (a' & Ha' & ->).
      exists a'. split; [done|]. f_equal. f_equal. lia. }
    assert (Hhead : exists evs0,
               (match f with Some o => lift o | None => fn offset a end) w
               = (Return (value offset a), log w evs0) /\ from_tasks events args evs0).
    { destruct f as [o|].
      - destruct (Hok 0%nat o eq_refl) as (a' & Ha' & ->). simpl in Ha'.
        injection Ha' as <-. exists []. rewrite log_nil, Nat.add_0_r.
        split; [reflexivity | by apply Forall_nil].
      - exists (events offset a). rewrite fn_run. split; [done|].
        eapply from_tasks_events. specialize (Hargs 0%nat a eq_refl).
        by rewrite Nat.add_0_r in Hargs. }
    destruct Hhead as (evs0 & Hrun0 & Hev0).
    destruct (IH (S offset) futures (log w evs0) Hl Hfs) as (evs & Hrun & Hev).
    exists (evs0 ++ evs). split; [|by apply from_tasks_app].
    simpl. unfold bind at 1. rewrite Hrun0. unfold bind at 1. rewrite Hrun.
    unfold ret. rewrite log_log, Nat.add_0_r. do 3 f_equal.
    apply imap_ext. intros k a' _. simpl. f_equal. lia.
Qed.

(** Whatever the order in which the tasks finish, the list that
    [executor.map] yields holds, at each index, the value of the task
    submitted at that index. *)
Lemma executor_map_spec order w :
  exists evs,
    executor_map fn args order w = (Return (imap value args), log w evs) /\
    from_tasks events args evs.
Proof.
  unfold executor_map.
  destruct (run_pool_spec order (replicate (length args) None) w)
    as (futures & evs1 & Hrun & Hok & Hev1).
  { split; [by rewrite length_replicate|].
    intros k o Hk. apply lookup_replicate in Hk. by destruct Hk. }
  rewrite Hrun.
  destruct (collect_spec args 0 futures (log w evs1)) as (evs2 & Hcol & Hev2);
    [done | done |].
  exists (evs1 ++ evs2). rewrite Hcol, log_log. split; [done|].
  by apply from_tasks_app.
Qed.
End Pool.

(** ** The translation stage *)

Lemma translate_all_run {raster} (E : env raster) results w :
  exists evs,
    translate_all E results w = (Return (translations E results), log w evs) /\
    from_tasks (translation_events E) (map text results) evs.
Proof.
  unfold translate_all, translations.
  apply executor_map_spec. intros i a w0. apply _translate_fragment_run.
Qed.

Lemma translations_length {raster} (E : env raster) results :
  length (translations E results) = length results.
Proof. unfold translations. by rewrite length_imap, length_map. Qed.

Lemma translations_lookup {raster} (E : env raster) results i item :
  results !! i = Some item ->
  translations E results !! i = Some (translation_of E i (text item)).
Proof.
  intros Hi. unfold translations.
  by rewrite list_lookup_imap, list_lookup_fmap_Some_2 with (x := item).
Qed.

(** ** The drawing loop *)



(** ** Order, isolation of failures, and the skip rule *)

Lemma class_matches_japanese c :
  class_matches japanese_class c = true <-> in_target_script c.
Proof.
  unfold class_matches, japanese_class, in_target_script. simpl.
  rewrite !orb_true_iff, !andb_true_iff, !N.leb_le. intuition discriminate.
Qed.

Lemma re_search_japanese s :
  re_search japanese_class s = true <-> exists c, In c s /\ in_target_script c.
Proof.
  unfold re_search. rewrite existsb_exists.
  split; intros (c & Hin & Hc); exists c; (split; [done|]);
    by apply class_matches_japanese.
Qed.




(** ** What a computation returns and what it records *)

Lemma returns_ret {A} (Q : A -> Prop) a : Q a -> returns Q (ret a).
Proof. intros HQ w a' w' [= <- _]. exact HQ. Qed.

Lemma returns_raise {A} (Q : A -> Prop) e : returns Q (raise e).
Proof. intros w a w' [=]. Qed.

Lemma returns_bind {A B} (Q : B -> Prop) (m : M A) (k : A -> M B) :
  (forall a, returns Q (k a)) -> returns Q (bind m k).
Proof.
  intros Hk w b w'. unfold bind. destruct (m w) as [[a|e] w1]; [|done].
  apply Hk.
Qed.

Lemma records_ret {A} P (a : A) : records P (ret a).
Proof. intros w. exists []. simpl. by rewrite app_nil_r. Qed.

Lemma records_raise {A} P e : records P (@raise A e).
Proof. intros w. exists []. simpl. by rewrite app_nil_r. Qed.

Lemma records_lift {A} P (o : outcome A) : records P (lift o).
Proof. destruct o; [apply records_ret | apply records_raise]. Qed.

Lemma records_emit (P : event -> Prop) ev : P ev -> records P (emit ev).
Proof. intros HP w. exists [ev]. split; [done|]. by apply Forall_cons. Qed.

Lemma records_bind {A B} P (m : M A) (k : A -> M B) :
  records P m -> (forall a, records P (k a)) -> records P (bind m k).
Proof.
  intros Hm Hk w. unfold bind. destruct (Hm w) as (evs1 & Ht1 & HP1).
  destruct (m w) as [[a|e] w1]; simpl in *.
  - destruct (Hk a w1) as (evs2 & Ht2 & HP2).
    exists (evs1 ++ evs2). rewrite Ht2, Ht1, app_assoc. split; [done|].
    by apply Forall_app.
  - by exists evs1.
Qed.

Lemma records_try_except {A} P (m : M A) (handler : exn -> M A) :
  records P m -> (forall e, records P (handler e)) ->
  records P (try_except m handler).
Proof.
  intros Hm Hh w. unfold try_except. destruct (Hm w) as (evs1 & Ht1 & HP1).
  destruct (m w) as [[a|e] w1]; simpl in *.
  - by exists evs1.
  - destruct (Hh e w1) as (evs2 & Ht2 & HP2).
    exists (evs1 ++ evs2). rewrite Ht2, Ht1, app_assoc. split; [done|].
    by apply Forall_app.
Qed.

Lemma records_silent {A} P (m : M A) :
  (forall w, trace (snd (m w)) = trace w) -> records P m.
Proof. intros Hm w. exists []. rewrite Hm, app_nil_r. by split. Qed.

Lemma records_os_path_exists P path : records P (os_path_exists path).
Proof. by apply records_silent. Qed.

Lemma records_read_file P path : records P (read_file path).
Proof. by apply records_silent. Qed.

Lemma records_write_file P path content : records P (write_file path content).
Proof. by apply records_silent. Qed.

Lemma records_os_remove {raster} (E : env raster) (P : event -> Prop) path :
  P (EvRemove path) -> records P (os_remove E path).
Proof.
  intros HP. unfold os_remove. apply records_bind; [by apply records_emit|].
  intros _. apply records_bind; [apply records_read_file|].
  intros [content|]; [|apply records_raise].
  destruct (os_remove_error E); [apply records_raise|].
  by apply records_silent.
Qed.

Lemma records_log {A} (P : event -> Prop) (m : M A) :
  (forall w, exists evs, snd (m w) = log w evs /\ Forall P evs) -> records P m.
Proof.
  intros Hm w. destruct (Hm w) as (evs & -> & HP). by exists evs.
Qed.

Lemma records_translate_all {raster} (E : env raster) (P : event -> Prop) results :
  (forall s, P (EvTranslate "auto" "ja" s)) ->
  (forall s e, P (EvPrint (LogTranslationError s e))) ->
  records P (translate_all E results).
Proof.
  intros Htr Hpr. apply records_log. intros w.
  destruct (translate_all_run E results w) as (evs & -> & Hev).
  exists evs. split; [done|].
  unfold from_tasks in Hev. eapply Forall_impl; [exact Hev|].
  intros ev (i & s & _ & Hin). unfold translation_events in Hin.
  destruct (re_search japanese_class s); [done|].
  destruct Hin as [<-|Hin]; [apply Htr|].
  destruct (GoogleTranslator E i "auto" "ja" s); [done|].
  destruct Hin as [<-|[]]. apply Hpr.
Qed.

Lemma records_draw_fragments {raster} (E : env raster) (P : event -> Prop)
    f W H translated results :
  (forall xy fill, P (EvRectangle xy fill)) ->
  (forall xy s fill f', P (EvText xy s fill f')) ->
  forall i img, records P (draw_fragments E f W H translated i results img).
Proof.
  intros Hrect Htext.
  induction results as [|item rest IH]; intros i img; simpl.
  - apply records_ret.
  - apply records_bind.
    { destruct (translated !! i); [apply records_ret | apply records_raise]. }
    intros s. apply records_bind.
    { unfold rectangle. apply records_bind; [by apply records_emit|].
      intros _. apply records_lift. }
    intros img1. apply records_bind.
    { unfold draw_text. apply records_bind; [by apply records_emit|].
      intros _. apply records_lift. }
    intros img2. apply IH.
Qed.

(** ** The pipeline returns a result dict and addresses the engine one way *)

Lemma records_ocr_vision {raster} (E : env raster) path :
  records addressed (_ocr_vision E path).
Proof.
  unfold _ocr_vision. apply records_bind.
  { apply records_try_except.
    - destruct (setRecognitionLanguages E); [apply records_raise | apply records_ret].
    - intros e. by apply records_emit. }
  intros _. apply records_bind; [by apply records_emit|].
  intros _. apply records_bind; [apply records_read_file|].
  intros image. destruct (performRequests E image) as [e|success results].
  - apply records_raise.
  - destruct (negb success); apply records_ret.
Qed.

Lemma records_load_font {raster} (E : env raster) self :
  records addressed (load_font E self).
Proof.
  unfold load_font. destruct (_cached_font_path self) as [path|].
  - destruct (ImageFont_truetype E path 14); [apply records_raise | apply records_ret].
  - destruct (ImageFont_load_default E); [apply records_raise | apply records_ret].
Qed.

Lemma records_process_image {raster} (E : env raster) self results translated :
  records addressed (process_image E self results translated).
Proof.
  unfold process_image. apply records_bind; [apply records_read_file|].
  intros content. apply records_bind; [apply records_lift|].
  intros img. apply records_bind.
  { destruct (ImageDraw_Draw E img); [apply records_raise | apply records_ret]. }
  intros _. destruct (Image_size E img) as [width height].
  apply records_bind; [apply records_load_font|].
  intros f. apply records_bind; [by apply records_draw_fragments|].
  intros img'. apply records_bind; [apply records_lift|].
  intros buf. apply records_ret.
Qed.

Lemma returns_process_image {raster} (E : env raster) self results translated :
  returns (fun img_data => exists png, img_data = b64encode E png)
          (process_image E self results translated).
Proof.
  unfold process_image.
  apply returns_bind. intros content. apply returns_bind. intros img.
  apply returns_bind. intros _. destruct (Image_size E img) as [width height].
  apply returns_bind. intros f. apply returns_bind. intros img'.
  apply returns_bind. intros buf. apply returns_ret. by exists buf.
Qed.

Lemma records_subprocess_run_check {raster} (E : env raster) args output :
  records addressed (subprocess_run_check E args output).
Proof.
  unfold subprocess_run_check. apply records_bind; [by apply records_emit|].
  intros _. destruct (screencapture E) as [e|returncode written].
  - apply records_raise.
  - apply records_bind.
    { destruct written; [apply records_write_file | apply records_ret]. }
    intros _. destruct (returncode =? 0); [apply records_ret | apply records_raise].
Qed.

Lemma capture_and_translate_unfold {raster} (E : env raster) self :
  capture_and_translate E self = try_except (pipeline_body E self) pipeline_handler.
Proof. reflexivity. Qed.

Lemma returns_pipeline_body {raster} (E : env raster) self :
  returns (is_result E) (pipeline_body E self).
Proof.
  unfold pipeline_body. apply returns_bind. intros _.
  apply returns_bind. intros captured. destruct (negb captured).
  { apply returns_ret. right. by eexists. }
  apply returns_bind. intros results. apply returns_bind. intros _.
  destruct results as [|item rest].
  { apply returns_ret. right. by eexists. }
  apply returns_bind. intros translated. intros w r w'. unfold bind at 1.
  destruct (process_image E self (item :: rest) translated w)
    as [[img_data|e] w1] eqn:Himg; [|done].
  apply returns_process_image in Himg as [png ->].
  revert w1 r w'. apply returns_bind. intros present. apply returns_bind.
  intros _. apply returns_ret. left. by exists png.
Qed.

Lemma records_pipeline_body {raster} (E : env raster) self :
  records addressed (pipeline_body E self).
Proof.
  unfold pipeline_body.
  apply records_bind; [apply records_subprocess_run_check|]. intros _.
  apply records_bind; [apply records_os_path_exists|]. intros captured.
  destruct (negb captured); [apply records_ret|].
  apply records_bind; [apply records_ocr_vision|]. intros results.
  apply records_bind; [by apply records_emit|]. intros _.
  destruct results as [|item rest]; [apply records_ret|].
  apply records_bind; [by apply records_translate_all|]. intros translated.
  apply records_bind; [apply records_process_image|]. intros img_data.
  apply records_bind; [apply records_os_path_exists|]. intros present.
  apply records_bind.
  { destruct present; [by apply records_os_remove | apply records_ret]. }
  intros _. apply records_ret.
Qed.

Lemma records_pipeline_handler e : records addressed (pipeline_handler e).
Proof.
  destruct e as [returncode|msg]; simpl; [apply records_ret|].
  apply records_bind; [by apply records_emit|]. intros _. apply records_ret.
Qed.

(** C9.  Every translation call a run records was made with source "auto"
    and target "ja" ([capture_and_translate] takes no locale); the skip
    rule's test is true exactly of the texts with a character in
    U+3040-U+309F, U+30A0-U+30FF or U+4E00-U+9FFF; so a text made of CJK
    unified ideographs only, Chinese included, is returned as it is with
    no call. *)
Theorem translation_is_always_auto_to_japanese {raster} (E : env raster)
    (self : API) (w : world) :
  (exists evs,
      trace (snd (capture_and_translate E self w)) = trace w ++ evs /\
      forall source target s,
        In (EvTranslate source target s) evs ->
        source = "auto"%string /\ target = "ja"%string) /\
  (forall s, re_search japanese_class s = true <->
             exists c, In c s /\
               ((0x3040 <= c <= 0x309F)%N \/ (0x30A0 <= c <= 0x30FF)%N \/
                (0x4E00 <= c <= 0x9FFF)%N)) /\
  (forall call c s w0,
      Forall (fun c' => (0x4E00 <= c' <= 0x9FFF)%N) (c :: s) ->
      _translate_fragment E call (c :: s) w0 = (Return (c :: s), w0)).
Proof.
  split; [|split].
  - destruct (records_try_except addressed (pipeline_body E self) pipeline_handler
                (records_pipeline_body E self) records_pipeline_handler w)
      as (evs & Htrace & Hev).
    exists evs. split; [exact Htrace|].
    intros source target s Hin. rewrite Forall_forall in Hev.
    apply (Hev (EvTranslate source target s)). by apply list_elem_of_In.
  - intros s. apply re_search_japanese.
  - intros call c s w0 Hcjk. rewrite _translate_fragment_run.
    assert (Hre : re_search japanese_class (c :: s) = true).
    { apply re_search_japanese. exists c. split; [by left|].
      right. right. by inversion Hcjk. }
    unfold translation_of, translation_events. by rewrite Hre, log_nil.
Qed.

(** ** Running the stages *)

Lemma bind_run {A B} (m : M A) (k : A -> M B) w a w' :
  m w = (Return a, w') -> bind m k w = k a w'.
Proof. intros Hm. unfold bind. by rewrite Hm. Qed.

Lemma bind_run_raise {A B} (m : M A) (k : A -> M B) w e w' :
  m w = (Raise e, w') -> bind m k w = (Raise e, w').
Proof. intros Hm. unfold bind. by rewrite Hm. Qed.

Lemma try_run {A} (m : M A) handler w a w' :
  m w = (Return a, w') -> try_except m handler w = (Return a, w').
Proof. intros Hm. unfold try_except. by rewrite Hm. Qed.

Lemma try_run_raise {A} (m : M A) handler w e w' :
  m w = (Raise e, w') -> try_except m handler w = handler e w'.
Proof. intros Hm. unfold try_except. by rewrite Hm. Qed.

Lemma captured_file_on_disk self content w :
  files (after_capture self (Some content) w) !! temp_image self = Some content.
Proof. unfold after_capture. simpl. apply lookup_insert_eq. Qed.

Lemma subprocess_run_check_run {raster} (E : env raster) self w :
  subprocess_run_check E ["screencapture"; "-i"; temp_image self]%string
    (temp_image self) w =
  match screencapture E with
  | CaptureRaises e => (Raise e, after_capture self None w)
  | CaptureExit returncode written =>
      (if returncode =? 0 then Return tt
       else Raise (CalledProcessError returncode),
       after_capture self written w)
  end.
Proof.
  unfold subprocess_run_check.
  rewrite (bind_run _ _ w tt (log w [EvSubprocessRun _])) by reflexivity.
  destruct (screencapture E) as [e|returncode written]; [reflexivity|].
  destruct written as [content|].
  - rewrite (bind_run _ _ _ tt (after_capture self (Some content) w)) by reflexivity.
    by destruct (returncode =? 0).
  - rewrite (bind_run _ _ _ tt (after_capture self None w)) by reflexivity.
    by destruct (returncode =? 0).
Qed.

Lemma _ocr_vision_run {raster} (E : env raster) image_path w :
  _ocr_vision E image_path w =
  (match performRequests E (files w !! image_path) with
   | VisionRaises e => Raise e
   | VisionDone success results =>
       Return (if success then ocr_data results else [])
   end, log w (ocr_events E image_path)).
Proof.
  unfold _ocr_vision, ocr_events.
  set (warn := match setRecognitionLanguages E with
               | Some e => [EvPrint (LogLanguagesWarning e)]
               | None => []
               end).
  rewrite (bind_run _ _ w tt (log w warn)).
  2:{ subst warn. destruct (setRecognitionLanguages E) as [e|].
      - by rewrite (try_run_raise _ _ w e w).
      - by rewrite (try_run _ _ w tt w), log_nil. }
  rewrite (bind_run _ _ _ tt (log w (warn ++ [EvPerformRequests image_path])))
    by (by rewrite emit_log, log_log).
  rewrite (bind_run _ _ _ (files w !! image_path)
             (log w (warn ++ [EvPerformRequests image_path]))) by reflexivity.
  destruct (performRequests E (files w !! image_path)) as [e|success results];
    [reflexivity|].
  by destruct success.
Qed.

(** ** The early exits *)

Lemma os_path_exists_run path w :
  os_path_exists path w =
  (Return (match files w !! path with Some _ => true | None => false end), w).
Proof.
  unfold os_path_exists. destruct (files w !! path) eqn:Hf.
  - by rewrite bool_decide_eq_true_2.
  - rewrite bool_decide_eq_false_2; [done|]. by intros [? ?].
Qed.

Lemma capture_exit_nonzero {raster} (E : env raster) self w returncode written :
  screencapture E = CaptureExit returncode written ->
  returncode <> 0 ->
  capture_and_translate E self w =
  (Return (error_result (str "Capture cancelled")), after_capture self written w).
Proof.
  intros Hcap Hrc. apply Z.eqb_neq in Hrc.
  unfold capture_and_translate, pipeline_body.
  rewrite (try_run_raise _ _ w (CalledProcessError returncode)
             (after_capture self written w)); [reflexivity|].
  apply bind_run_raise.
  by rewrite subprocess_run_check_run, Hcap, Hrc.
Qed.

Lemma capture_exit_zero_no_file {raster} (E : env raster) self w :
  screencapture E = CaptureExit 0 None ->
  files w !! temp_image self = None ->
  capture_and_translate E self w =
  (Return (error_result (str "Canceled or failed to capture")),
   after_capture self None w).
Proof.
  intros Hcap Hnone. unfold capture_and_translate, pipeline_body.
  apply try_run.
  erewrite bind_run; [|by rewrite subprocess_run_check_run, Hcap].
  erewrite bind_run; [|apply os_path_exists_run].
  simpl. by rewrite Hnone.
Qed.

(** ** Overlapping fragments: the last fill wins *)

Section Compositor.
Context {raster pixel_colour : Type}.
Variable E : env raster.

(** What the image shows at a pixel, the pixels PIL paints for a rectangle
    given by its corners, and the pixel value of a colour name. *)
Variable colour_at : raster -> Z * Z -> pixel_colour.
Variable covered : float * float * float * float -> Z * Z -> bool.
Variable ink : string -> pixel_colour.

(** PIL's rectangle sets every pixel it covers to the fill colour. *)
Hypothesis rectangle_fills :
  forall img xy fill img' p,
    ImageDraw_rectangle E img xy fill = Return img' ->
    covered xy p = true -> colour_at img' p = ink fill.

(** What a drawing call leaves at a pixel depends on the image it draws on
    only through what that image shows at the same pixel. *)
Hypothesis rectangle_local :
  forall img1 img2 xy fill img1' img2' p,
    ImageDraw_rectangle E img1 xy fill = Return img1' ->
    ImageDraw_rectangle E img2 xy fill = Return img2' ->
    colour_at img1 p = colour_at img2 p -> colour_at img1' p = colour_at img2' p.

Hypothesis text_local :
  forall img1 img2 xy s fill f img1' img2' p,
    ImageDraw_text E img1 xy s fill f = Return img1' ->
    ImageDraw_text E img2 xy s fill f = Return img2' ->
    colour_at img1 p = colour_at img2 p -> colour_at img1' p = colour_at img2' p.





End Compositor.

(** ** Runs of the sample environment *)

Import Sample Scenario.

(** Start-up finds the font and removes the leftover capture. *)
Example startup_cleans :
  let '(self, w) := API__init__ E0 boot in
  self = Return self0 /\ files w !! "temp_capture.png"%string = None.
Proof. vm_compute. done. Qed.

(** The end-to-end scenario: "Hello" at [{x: 0.1, y: 0.8, w: 0.3,
    h: 0.1}] on a 100 by 100 capture is covered from about (8, 8) to
    (42, 22) and "こんにちは" is drawn at about (10, 10); the capture file is
    gone afterwards. *)
Example end_to_end :
  let '(r, w) := capture_and_translate E0 self0 w0 in
  r = Return (image_result (str "data:image/png;base64,iVBORw==")) /\
  files w !! "temp_capture.png"%string = None /\
  trace w =
    [ EvSubprocessRun ["screencapture"; "-i"; "temp_capture.png"]%string;
      EvPerformRequests "temp_capture.png";
      EvPrint (LogOcrFound 1);
      EvTranslate "auto" "ja" hello;
      EvRectangle (8, 7.9999999999999982, 42, 22)%float "white";
      EvText (10, 9.9999999999999982)%float konnichiwa "black"
        (FreeTypeFont "/System/Library/Fonts/Hiragino Sans GB.ttc" 14);
      EvRemove "temp_capture.png" ].
Proof. vm_compute. done. Qed.

(** Two fragments with the same text whose calls are answered differently
    (the first fails, the second succeeds): each box is filled and drawn
    with the result of its own call. *)
Example equal_texts_keep_their_own_results :
  let f := FreeTypeFont "/System/Library/Fonts/Hiragino Sans GB.ttc" 14 in
  let blank := {| cv_size := (100, 100); cv_drawn := [] |} in
  let '(translated, w1) := translate_all E_first_call_fails twice w0 in
  translated = Return [hello; konnichiwa] /\
  trace (snd (draw_fragments E_first_call_fails f 100 100 [hello; konnichiwa]
                0 twice blank w0))
    = fragment_events f 100 100
        {| text := hello; box := mkBox 0.1%float 0.8%float 0.3%float 0.1%float |}
        hello ++
      fragment_events f 100 100
        {| text := hello; box := mkBox 0.2%float 0.8%float 0.3%float 0.1%float |}
        konnichiwa.
Proof. vm_compute. done. Qed.


(** ** The capture file after a run *)

(** C6 at a failing input.  The capture succeeds and the OCR finds no
    text: the run returns the error "No text detected" and the capture
    file is still on disk, whereas the successful run removes it. *)
Theorem no_text_run_leaves_capture_file :
  fst (capture_and_translate E_no_text self0 w0)
    = Return (error_result (str "No text detected")) /\
  files (snd (capture_and_translate E_no_text self0 w0)) !! temp_image self0
    = Some shot /\
  files (snd (capture_and_translate E0 self0 w0)) !! temp_image self0 = None.
Proof. vm_compute. done. Qed.

(** C10 at a failing input.  After start-up, a first run finds no text and
    a second run is cancelled (the capture process exits with status 1 and
    writes nothing): the second run returns the error "Capture cancelled",
    and the capture file of the first run is still on disk. *)
Theorem cancelled_run_after_no_text_run_leaves_capture_file :
  let w1 := snd (API__init__ E0 boot) in
  let w2 := snd (capture_and_translate E_no_text self0 w1) in
  let run := capture_and_translate E_cancelled self0 w2 in
  files w1 !! temp_image self0 = None /\
  fst run = Return (error_result (str "Capture cancelled")) /\
  files (snd run) !! temp_image self0 = Some shot.
Proof. vm_compute. done. Qed.

(** After a run that left its capture behind, a capture aborted with
    status 0 is not noticed: the leftover file is found at the capture
    path, sent to the OCR again, and an image is returned. *)
Example aborted_run_after_no_text_run_reads_stale_capture :
  let w1 := snd (capture_and_translate E_no_text self0 w0) in
  let run := capture_and_translate E_aborted self0 w1 in
  fst run = Return (image_result (str "data:image/png;base64,iVBORw==")) /\
  In (EvPerformRequests "temp_capture.png") (skipn (length (trace w1)) (trace (snd run))).
Proof. vm_compute. intuition. Qed.

(** ** The font of the drawn text *)






(** ** More on the exits *)

(** The order in which the tasks finish shows in the order of the calls,
    not in the order of the results. *)
Example completion_order_changes_calls_not_results :
  let run01 := translate_all (with_completion_order E_echo [0; 1]%nat) two_words w0 in
  let run10 := translate_all (with_completion_order E_echo [1; 0]%nat) two_words w0 in
  fst run01 = Return [str "HelloHello"; str "WorldWorld"] /\
  fst run10 = Return [str "HelloHello"; str "WorldWorld"] /\
  trace (snd run01) = [EvTranslate "auto" "ja" (str "Hello");
                       EvTranslate "auto" "ja" (str "World")] /\
  trace (snd run10) = [EvTranslate "auto" "ja" (str "World");
                       EvTranslate "auto" "ja" (str "Hello")].
Proof. vm_compute. done. Qed.

Lemma ensures_ret {A} (Q : A -> world -> Prop) a :
  (forall w, Q a w) -> ensures Q (ret a).
Proof. intros HQ w a' w' [= <- <-]. apply HQ. Qed.

Lemma ensures_bind {A B} (Q : B -> world -> Prop) (m : M A) (k : A -> M B) :
  (forall a, ensures Q (k a)) -> ensures Q (bind m k).
Proof.
  intros Hk w b w'. unfold bind. destruct (m w) as [[a|e] w1]; [|done].
  apply Hk.
Qed.

Lemma os_remove_removes {raster} (E : env raster) path w w' :
  os_remove E path w = (Return tt, w') -> files w' !! path = None.
Proof.
  unfold os_remove. rewrite (bind_run _ _ w tt (log w [EvRemove path])) by reflexivity.
  rewrite (bind_run _ _ _ (files w !! path) (log w [EvRemove path])) by reflexivity.
  destruct (files w !! path); [|discriminate].
  destruct (os_remove_error E); [discriminate|].
  intros [= <-]. simpl. apply lookup_delete_eq.
Qed.

(** The capture-cancellation exits.  When the capture process exits with a
    nonzero status the run returns the error "Capture cancelled"; when it
    exits with status 0 and there is no file at the capture path the run
    returns the error "Canceled or failed to capture" and no file is there
    afterwards; in both cases the only call recorded is the one to the
    capture process: no OCR, no translation, no drawing. *)
Theorem capture_cancellation_is_reported {raster} (E : env raster)
    (self : API) (w : world) :
  (forall returncode written,
      screencapture E = CaptureExit returncode written -> returncode <> 0 ->
      fst (capture_and_translate E self w)
        = Return (error_result (str "Capture cancelled")) /\
      trace (snd (capture_and_translate E self w))
        = trace w ++ [EvSubprocessRun ["screencapture"; "-i"; temp_image self]%string]) /\
  (screencapture E = CaptureExit 0 None ->
   files w !! temp_image self = None ->
      fst (capture_and_translate E self w)
        = Return (error_result (str "Canceled or failed to capture")) /\
      trace (snd (capture_and_translate E self w))
        = trace w ++ [EvSubprocessRun ["screencapture"; "-i"; temp_image self]%string] /\
      files (snd (capture_and_translate E self w)) !! temp_image self = None).
Proof.
  split.
  - intros returncode written Hcap Hrc.
    by rewrite (capture_exit_nonzero E self w returncode written).
  - intros Hcap Hnone. by rewrite (capture_exit_zero_no_file E self w).
Qed.

Lemma capture_cancellation_is_reported_witness :
  (fst (capture_and_translate E_cancelled self0 w0)
     = Return (error_result (str "Capture cancelled")) /\
   trace (snd (capture_and_translate E_cancelled self0 w0))
     = trace w0 ++ [EvSubprocessRun ["screencapture"; "-i"; temp_image self0]%string]) /\
  (fst (capture_and_translate E_aborted self0 w0)
     = Return (error_result (str "Canceled or failed to capture")) /\
   trace (snd (capture_and_translate E_aborted self0 w0))
     = trace w0 ++ [EvSubprocessRun ["screencapture"; "-i"; temp_image self0]%string] /\
   files (snd (capture_and_translate E_aborted self0 w0)) !! temp_image self0 = None).
Proof.
  split.
  - apply (proj1 (capture_cancellation_is_reported E_cancelled self0 w0) 1 None);
      [reflexivity | lia].
  - apply (proj2 (capture_cancellation_is_reported E_aborted self0 w0));
      reflexivity.
Defined.

(** A run that returns an image has removed the capture file. *)
Theorem image_result_means_capture_removed {raster} (E : env raster)
    (self : API) (w : world) (r : gmap string pystr) (w' : world) :
  capture_and_translate E self w = (Return r, w') ->
  is_Some (r !! "image"%string) ->
  files w' !! temp_image self = None.
Proof.
  rewrite capture_and_translate_unfold. unfold try_except.
  destruct (pipeline_body E self w) as [[r0|e] w1] eqn:Hbody.
  - intros [= <- <-]. revert w r0 w1 Hbody.
    change (ensures (fun r0 w1 => is_Some (r0 !! "image"%string) ->
                                  files w1 !! temp_image self = None)
                    (pipeline_body E self)).
    unfold pipeline_body. apply ensures_bind. intros _.
    apply ensures_bind. intros captured. destruct (negb captured).
    { apply ensures_ret. intros w1 [? Hr]. by vm_compute in Hr. }
    apply ensures_bind. intros results. apply ensures_bind. intros _.
    destruct results as [|item rest].
    { apply ensures_ret. intros w1 [? Hr]. by vm_compute in Hr. }
    apply ensures_bind. intros translated. apply ensures_bind. intros img_data.
    intros w1 r0 w2. rewrite (bind_run _ _ w1 _ w1 (os_path_exists_run _ w1)).
    destruct (files w1 !! temp_image self) eqn:Hfile.
    + unfold bind.
      destruct (os_remove E (temp_image self) w1) as [[[]|e] w3] eqn:Hrm; [|done].
      intros [= <- <-] _. by eapply os_remove_removes.
    + intros [= <- <-] _. exact Hfile.
  - destruct e as [returncode|msg]; simpl.
    + intros [= <- <-] [? Hr]. by vm_compute in Hr.
    + unfold bind, print. rewrite emit_log. intros [= <- <-] [? Hr].
      unfold error_result in Hr. by rewrite lookup_singleton_ne in Hr.
Qed.

Lemma image_result_means_capture_removed_witness :
  files (snd (capture_and_translate E0 self0 w0)) !! temp_image self0 = None.
Proof.
  apply (image_result_means_capture_removed E0 self0 w0
           (image_result (str "data:image/png;base64,iVBORw==")));
    [reflexivity | by eexists].
Defined.

(** * Further properties *)

(** ** Start-up: the font lookup and the cleanup *)

Lemma first_existing_run paths w :
  exists r,
    first_existing paths w = (Return r, w) /\
    match r with
    | Some p =>
        exists before after,
          paths = before ++ p :: after /\
          is_Some (files w !! p) /\
          Forall (fun q => files w !! q = None) before
    | None => Forall (fun q => files w !! q = None) paths
    end.
Proof.
  induction paths as [|fp rest IH]; simpl.
  - exists None. split; [reflexivity | constructor].
  - rewrite (bind_run _ _ w _ w (os_path_exists_run fp w)).
    destruct (files w !! fp) as [content|] eqn:Hfp.
    + exists (Some fp). split; [reflexivity|].
      exists [], rest. repeat split; [by rewrite Hfp; eexists | constructor].
    + destruct IH as (r & Hrun & Hr). exists r. split; [exact Hrun|].
      destruct r as [p|].
      * destruct Hr as (before & after & -> & Hp & Hbefore).
        exists (fp :: before), after. repeat split; [done|].
        by constructor.
      * by constructor.
Qed.

(** The font lookup returns the first of the four candidate paths that
    exists on disk, and nothing when none of them exists; it changes
    neither the files nor the trace. *)
Theorem _find_font_first_match_wins (w : world) :
  exists r,
    _find_font w = (Return r, w) /\
    match r with
    | Some p =>
        exists before after,
          font_paths = before ++ p :: after /\
          is_Some (files w !! p) /\
          Forall (fun q => files w !! q = None) before
    | None => Forall (fun q => files w !! q = None) font_paths
    end.
Proof. apply first_existing_run. Qed.

(** The world [_cleanup] leaves: nothing changes when there is no capture
    file; otherwise one removal is attempted, and the file is gone unless
    the system refused. *)
Lemma _cleanup_run {raster} (E : env raster) self w :
  _cleanup E self w =
  (Return tt,
   match files w !! temp_image self with
   | None => w
   | Some _ =>
       {| files := match os_remove_error E with
                   | Some _ => files w
                   | None => delete (temp_image self) (files w)
                   end;
          trace := trace w ++ [EvRemove (temp_image self)] |}
   end).
Proof.
  unfold _cleanup.
  rewrite (bind_run _ _ w _ w (os_path_exists_run _ w)).
  destruct (files w !! temp_image self) as [content|] eqn:Hfile; [|reflexivity].
  unfold try_except, os_remove.
  rewrite (bind_run _ _ w tt (log w [EvRemove (temp_image self)])) by reflexivity.
  rewrite (bind_run _ _ _ (Some content) (log w [EvRemove (temp_image self)]))
    by (unfold read_file; simpl; by rewrite Hfile).
  by destruct (os_remove_error E).
Qed.

Lemma API__init__run {raster} (E : env raster) (w : world) :
  exists fp w',
    API__init__ E w
      = (Return {| temp_image := "temp_capture.png"; _cached_font_path := fp |}, w') /\
    _find_font w = (Return fp, w) /\
    files w' = match os_remove_error E with
               | Some _ => files w
               | None => delete "temp_capture.png"%string (files w)
               end /\
    (files w !! "temp_capture.png"%string = None -> w' = w).
Proof.
  destruct (first_existing_run font_paths w) as (fp & Hfont & _).
  unfold API__init__. unfold _find_font at 1.
  rewrite (bind_run _ _ w fp w Hfont). cbv zeta.
  set (self := {| temp_image := "temp_capture.png"; _cached_font_path := fp |}).
  rewrite (bind_run _ _ w tt _ (_cleanup_run E self w)).
  eexists fp, _. split; [reflexivity|]. split; [exact Hfont|].
  change (temp_image self) with "temp_capture.png"%string.
  destruct (files w !! "temp_capture.png"%string) eqn:Hfile.
  - split; [reflexivity | discriminate].
  - split; [|done]. destruct (os_remove_error E); [done|].
    by rewrite delete_id.
Qed.

(** Constructing the [API] object never raises, even when the leftover
    capture cannot be removed.  The object holds the capture path
    "temp_capture.png" and the font path the lookup found on the disk as
    it was; afterwards the capture file is gone unless the system refused
    to remove it, no other file is touched, and when there was no leftover
    nothing at all is done. *)
Theorem API__init__never_raises {raster} (E : env raster) (w : world) :
  exists fp w',
    API__init__ E w
      = (Return {| temp_image := "temp_capture.png"; _cached_font_path := fp |}, w') /\
    _find_font w = (Return fp, w) /\
    files w' = match os_remove_error E with
               | Some _ => files w
               | None => delete "temp_capture.png"%string (files w)
               end /\
    (files w !! "temp_capture.png"%string = None -> w' = w).
Proof. apply API__init__run. Qed.

(** Right after a start-up whose cleanup was not refused, a capture that
    exits with status 0 without writing a file is always reported as
    "Canceled or failed to capture": no leftover can be taken for a new
    capture. *)
Theorem aborted_capture_after_startup_is_detected {raster}
    (E_init E : env raster) (w w1 : world) (self : API) :
  os_remove_error E_init = None ->
  API__init__ E_init w = (Return self, w1) ->
  screencapture E = CaptureExit 0 None ->
  capture_and_translate E self w1 =
  (Return (error_result (str "Canceled or failed to capture")),
   after_capture self None w1).
Proof.
  intros Hrm Hinit Hcap.
  destruct (API__init__run E_init w) as (fp & w' & Hrun & _ & Hfiles & _).
  rewrite Hrun in Hinit. injection Hinit as <- <-.
  apply capture_exit_zero_no_file; [exact Hcap|].
  simpl. rewrite Hfiles, Hrm. apply lookup_delete_eq.
Qed.

(** ** OCR *)

Lemma ocr_data_map_filter results :
  ocr_data results = map fragment_of (List.filter has_candidate results).
Proof.
  induction results as [|result rest IH]; [reflexivity|].
  simpl. unfold has_candidate at 1.
  destruct (topCandidates result) as [|candidate others] eqn:Hc; [exact IH|].
  simpl. rewrite IH. f_equal. unfold fragment_of. by rewrite Hc.
Qed.

(** When the capture is on disk and the recognition call raises an
    exception with message [msg], the run returns the dict with that
    message as error, after printing the traceback; no translation and no
    drawing call is made. *)
Theorem ocr_exception_is_reported {raster} (E : env raster) (self : API)
    (w : world) (content : list byte) (msg : pystr) :
  screencapture E = CaptureExit 0 (Some content) ->
  performRequests E (Some content) = VisionRaises (Exception msg) ->
  capture_and_translate E self w =
  (Return (error_result msg),
   log (after_capture self (Some content) w)
       (ocr_events E (temp_image self) ++ [EvPrint (LogTraceback (Exception msg))])).
Proof.
  intros Hcap Hocr. unfold capture_and_translate.
  rewrite (try_run_raise _ _ w (Exception msg)
             (log (after_capture self (Some content) w)
                  (ocr_events E (temp_image self)))).
  - simpl. unfold print. rewrite (bind_run _ _ _ tt _ (emit_log _ _)).
    by rewrite log_log.
  - unfold pipeline_body.
    erewrite bind_run; [|by rewrite subprocess_run_check_run, Hcap].
    erewrite bind_run; [|apply os_path_exists_run].
    rewrite captured_file_on_disk. change (negb true) with false. cbv iota.
    apply bind_run_raise.
    by rewrite _ocr_vision_run, captured_file_on_disk, Hocr.
Qed.

(** ** Every task of the pool runs once *)

Section PoolCalls.
Context {A B : Type}.
Variable fn : nat -> A -> M B.
Variable value : nat -> A -> B.
Variable events : nat -> A -> list event.
Variable args : list A.

Hypothesis fn_run : forall i a w, fn i a w = (Return (value i a), log w (events i a)).

Lemma pending_all_none (l : list A) : forall i,
  pending (B := B) events i l (replicate (length l) None) = concat (imap (fun k a => events (i + k) a) l).
Proof.
  induction l as [|a l IH]; intros i; simpl; [done|].
  rewrite Nat.add_0_r. f_equal. rewrite IH. f_equal.
  apply imap_ext. intros k b _. simpl. f_equal. lia.
Qed.

Lemma pending_insert (r : outcome B) (l : list A) :
  forall offset futures i a,
    l !! i = Some a -> futures !! i = Some None ->
    Permutation (pending events offset l futures)
                (events (offset + i) a ++
                 pending events offset l (<[i := Some r]> futures)).
Proof.
  induction l as [|b l IH]; intros offset futures i a Hl Hf; [done|].
  destruct futures as [|f futures]; [done|].
  destruct i as [|i]; simpl in Hl, Hf.
  - injection Hl as ->. injection Hf as ->. simpl.
    by rewrite Nat.add_0_r.
  - simpl. rewrite (IH (S offset) futures i a Hl Hf).
    replace (S offset + i)%nat with (offset + S i)%nat by lia.
    apply Permutation_app_swap_app.
Qed.

Lemma run_pool_calls order : forall futures w,
  futures_ok value 0 args futures ->
  exists futures' evs,
    run_pool fn args order futures w = (futures', log w evs) /\
    futures_ok value 0 args futures' /\
    Permutation (evs ++ pending events 0 args futures')
                (pending events 0 args futures).
Proof.
  induction order as [|i order IH]; intros futures w Hok; simpl.
  - exists futures, []. by rewrite log_nil.
  - destruct (args !! i) as [a|] eqn:Ha; [|by apply IH].
    destruct (futures !! i) as [[o|]|] eqn:Hf; try by apply IH.
    rewrite fn_run.
    destruct (IH (<[i := Some (Return (value i a))]> futures)
                (log w (events i a))) as (futures' & evs & Hrun & Hok' & Hperm).
    { by apply futures_ok_insert. }
    exists futures', (events i a ++ evs). rewrite Hrun, log_log.
    split; [done|]. split; [done|].
    rewrite (pending_insert (Return (value i a)) args 0 futures i a Ha Hf).
    rewrite <- app_assoc. simpl. by apply Permutation_app_head.
Qed.

Lemma collect_calls : forall (l : list A) offset futures w,
  futures_ok value offset l futures ->
  collect fn offset l futures w =
    (Return (imap (fun k a => value (offset + k) a) l),
     log w (pending events offset l futures)).
Proof.
  induction l as [|a l IH]; intros offset futures w [Hlen Hok].
  - destruct futures; simpl; by rewrite log_nil.
  - destruct futures as [|f futures]; [done|]. simpl in Hlen.
    assert (Hfs : futures_ok value (S offset) l futures).
    { split; [lia|]. intros k o Hk. destruct (Hok (S k) o Hk) as (a' & Ha' & ->).
      exists a'. split; [done|]. f_equal. f_equal. lia. }
    simpl.
    assert (Hhead :
      (match f with Some o => lift o | None => fn offset a end) w
      = (Return (value offset a),
         log w (match f with None => events offset a | Some _ => [] end))).
    { destruct f as [o|].
      - destruct (Hok 0%nat o eq_refl) as (a' & Ha' & ->). simpl in Ha'.
        injection Ha' as <-. by rewrite log_nil, Nat.add_0_r.
      - apply fn_run. }
    rewrite (bind_run _ _ _ _ _ Hhead).
    rewrite (bind_run _ _ _ _ _ (IH (S offset) futures _ Hfs)).
    unfold ret. rewrite log_log, Nat.add_0_r. do 3 f_equal.
    apply imap_ext. intros k a' _. simpl. f_equal. lia.
Qed.

(** The calls a batch records are, up to their order, the calls of each
    task taken once. *)
Lemma executor_map_calls order w :
  exists evs,
    executor_map fn args order w = (Return (imap value args), log w evs) /\
    Permutation evs (concat (imap events args)).
Proof.
  unfold executor_map.
  destruct (run_pool_calls order (replicate (length args) None) w)
    as (futures & evs1 & Hrun & Hok & Hperm).
  { split; [by rewrite length_replicate|].
    intros k o Hk. apply lookup_replicate in Hk. by destruct Hk. }
  rewrite Hrun, (collect_calls args 0 futures _ Hok), log_log.
  exists (evs1 ++ pending events 0 args futures). split; [done|].
  rewrite Hperm. by rewrite (pending_all_none args 0).
Qed.

End PoolCalls.

Lemma filter_length_Permutation {T} (f : T -> bool) (l l' : list T) :
  Permutation l l' -> length (List.filter f l) = length (List.filter f l').
Proof.
  induction 1 as [|x l l' _ IH|x y l|l l' l'' _ IH1 _ IH2]; simpl.
  - reflexivity.
  - destruct (f x); simpl; by rewrite IH.
  - by destruct (f x), (f y).
  - by rewrite IH1.
Qed.

Lemma translation_calls_count {raster} (E : env raster) (texts : list pystr) :
  forall i,
    length (List.filter is_translate
              (concat (imap (fun k s => translation_events E (i + k) s) texts)))
    = length (List.filter (fun s => negb (re_search japanese_class s)) texts).
Proof.
  induction texts as [|s texts IH]; intros i; [reflexivity|].
  assert (Hrest :
    length (List.filter is_translate
              (concat (imap ((fun k s0 => translation_events E (i + k) s0) ∘ S) texts)))
    = length (List.filter (fun s0 => negb (re_search japanese_class s0)) texts)).
  { rewrite <- (IH (S i)). do 3 f_equal.
    apply imap_ext. intros k s0 _. simpl. f_equal. lia. }
  cbn [imap concat List.filter]. rewrite List.filter_app, length_app, Hrest.
  rewrite Nat.add_0_r. unfold translation_events.
  destruct (re_search japanese_class s); simpl; [done|].
  by destruct (GoogleTranslator E i "auto" "ja" s).
Qed.

(** Whatever the completion order, the calls the translation stage
    records are, up to their order, those of each fragment taken once: one
    engine call for each fragment whose text has no target-script
    character (followed by one error line when that call raises) and
    nothing for the others.  So the number of engine calls is the number
    of such fragments: no call is repeated, none is retried after a
    failure. *)
Theorem each_fragment_is_translated_at_most_once {raster} (E : env raster)
    (order : list nat) (results : list fragment) (w : world) :
  exists evs,
    translate_all (with_completion_order E order) results w
      = (Return (translations E results), log w evs) /\
    Permutation evs (concat (imap (translation_events E) (map text results))) /\
    length (List.filter is_translate evs)
      = length (List.filter (fun s => negb (re_search japanese_class s))
                            (map text results)).
Proof.
  destruct (executor_map_calls (_translate_fragment (with_completion_order E order))
              (translation_of E) (translation_events E) (map text results)
              (fun i a w0 => _translate_fragment_run _ i a w0) order w)
    as (evs & Hrun & Hperm).
  exists evs. split; [exact Hrun|]. split; [exact Hperm|].
  rewrite (filter_length_Permutation _ _ _ Hperm).
  apply (translation_calls_count E (map text results) 0).
Qed.

(** ** The stages of a run come in order *)

Lemma in_stage_order_app evs1 evs2 :
  in_stage_order evs1 -> in_stage_order evs2 ->
  (forall a b, In a evs1 -> In b evs2 -> (phase a <= phase b)%nat) ->
  in_stage_order (evs1 ++ evs2).
Proof.
  unfold in_stage_order. intros H1 H2 Hcross.
  induction H1 as [|a l Hl IH Ha]; simpl; [exact H2|].
  constructor.
  - apply IH. intros x y Hx Hy. apply Hcross; [by right | done].
  - apply Forall_app_2; [exact Ha|].
    apply Forall_forall. intros b Hb. apply Hcross; [by left|].
    by apply list_elem_of_In.
Qed.

Lemma in_stage_order_same n evs :
  Forall (fun ev => phase ev = n) evs -> in_stage_order evs.
Proof.
  unfold in_stage_order. induction 1 as [|a l Ha Hl IH]; constructor; [exact IH|].
  eapply Forall_impl; [exact Hl|]. intros b Hb. simpl in Hb. lia.
Qed.

Lemma staged_silent {A} lo hi (m : M A) :
  (forall w, trace (snd (m w)) = trace w) -> staged lo hi m.
Proof.
  intros Hm w. exists []. rewrite Hm, app_nil_r. repeat split; constructor.
Qed.

Lemma staged_records {A} n (m : M A) :
  records (fun ev => phase ev = n) m -> staged n n m.
Proof.
  intros Hm w. destruct (Hm w) as (evs & Htrace & Hev).
  exists evs. split; [exact Htrace|]. split.
  - eapply Forall_impl; [exact Hev|]. intros ev Hn. simpl in Hn. lia.
  - by eapply in_stage_order_same.
Qed.

Lemma staged_weaken {A} lo hi lo' hi' (m : M A) :
  (lo' <= lo)%nat -> (hi <= hi')%nat -> staged lo hi m -> staged lo' hi' m.
Proof.
  intros Hlo Hhi Hm w. destruct (Hm w) as (evs & Htrace & Hev & Hsorted).
  exists evs. split; [exact Htrace|]. split; [|exact Hsorted].
  eapply Forall_impl; [exact Hev|]. intros ev Hn. simpl in Hn. lia.
Qed.

Lemma staged_bind {A B} lo mid hi (m : M A) (k : A -> M B) :
  (lo <= mid)%nat -> (mid <= hi)%nat ->
  staged lo mid m -> (forall a, staged mid hi (k a)) -> staged lo hi (bind m k).
Proof.
  intros Hlo Hhi Hm Hk w. unfold bind.
  destruct (Hm w) as (evs1 & Ht1 & Hev1 & Hs1).
  destruct (m w) as [[a|e] w1]; simpl in *.
  - destruct (Hk a w1) as (evs2 & Ht2 & Hev2 & Hs2).
    exists (evs1 ++ evs2). rewrite Ht2, Ht1, app_assoc. split; [done|]. split.
    + apply Forall_app_2.
      * eapply Forall_impl; [exact Hev1|]. intros ev Hn. simpl in Hn. lia.
      * eapply Forall_impl; [exact Hev2|]. intros ev Hn. simpl in Hn. lia.
    + apply in_stage_order_app; [done|done|].
      intros x y Hx Hy. rewrite Forall_forall in Hev1, Hev2.
      apply list_elem_of_In in Hx, Hy.
      specialize (Hev1 x Hx). specialize (Hev2 y Hy). simpl in *. lia.
  - exists evs1. split; [done|]. split; [|done].
    eapply Forall_impl; [exact Hev1|]. intros ev Hn. simpl in Hn. lia.
Qed.

Lemma staged_try_except {A} lo mid hi (m : M A) (handler : exn -> M A) :
  (lo <= mid)%nat -> (mid <= hi)%nat ->
  staged lo mid m -> (forall e, staged mid hi (handler e)) ->
  staged lo hi (try_except m handler).
Proof.
  intros Hlo Hhi Hm Hh w. unfold try_except.
  destruct (Hm w) as (evs1 & Ht1 & Hev1 & Hs1).
  destruct (m w) as [[a|e] w1]; simpl in *.
  - exists evs1. split; [done|]. split; [|done].
    eapply Forall_impl; [exact Hev1|]. intros ev Hn. simpl in Hn. lia.
  - destruct (Hh e w1) as (evs2 & Ht2 & Hev2 & Hs2).
    exists (evs1 ++ evs2). rewrite Ht2, Ht1, app_assoc. split; [done|]. split.
    + apply Forall_app_2.
      * eapply Forall_impl; [exact Hev1|]. intros ev Hn. simpl in Hn. lia.
      * eapply Forall_impl; [exact Hev2|]. intros ev Hn. simpl in Hn. lia.
    + apply in_stage_order_app; [done|done|].
      intros x y Hx Hy. rewrite Forall_forall in Hev1, Hev2.
      apply list_elem_of_In in Hx, Hy.
      specialize (Hev1 x Hx). specialize (Hev2 y Hy). simpl in *. lia.
Qed.

Lemma records_load_font_any {raster} (E : env raster) (P : event -> Prop) self :
  records P (load_font E self).
Proof.
  unfold load_font. destruct (_cached_font_path self) as [path|].
  - destruct (ImageFont_truetype E path 14); [apply records_raise | apply records_ret].
  - destruct (ImageFont_load_default E); [apply records_raise | apply records_ret].
Qed.

Lemma records_process_image_any {raster} (E : env raster) (P : event -> Prop)
    self results translated :
  (forall xy fill, P (EvRectangle xy fill)) ->
  (forall xy s fill f, P (EvText xy s fill f)) ->
  records P (process_image E self results translated).
Proof.
  intros Hrect Htext.
  unfold process_image. apply records_bind; [apply records_read_file|].
  intros content. apply records_bind; [apply records_lift|].
  intros img. apply records_bind.
  { destruct (ImageDraw_Draw E img); [apply records_raise | apply records_ret]. }
  intros _. destruct (Image_size E img) as [width height].
  apply records_bind; [apply records_load_font_any|].
  intros f. apply records_bind; [by apply records_draw_fragments|].
  intros img'. apply records_bind; [apply records_lift|].
  intros buf. apply records_ret.
Qed.

Lemma staged_pipeline_body {raster} (E : env raster) self :
  staged 0 5 (pipeline_body E self).
Proof.
  unfold pipeline_body.
  apply (staged_bind 0 0 5); [lia | lia | |].
  { intros w. rewrite subprocess_run_check_run.
    exists [EvSubprocessRun ["screencapture"; "-i"; temp_image self]%string].
    split; [by destruct (screencapture E)|]. split.
    - repeat constructor.
    - by apply (in_stage_order_same 0); repeat constructor. }
  intros _. apply (staged_bind 0 0 5); [lia | lia | by apply staged_silent |].
  intros captured. destruct (negb captured); [by apply staged_silent|].
  apply (staged_bind 0 1 5); [lia | lia | |].
  { apply (staged_weaken 1 1); [lia | lia |]. apply staged_records.
    intros w. rewrite _ocr_vision_run. exists (ocr_events E (temp_image self)).
    split; [done|]. unfold ocr_events.
    destruct (setRecognitionLanguages E); repeat constructor. }
  intros results. apply (staged_bind 1 2 5); [lia | lia | |].
  { apply (staged_weaken 2 2); [lia | lia |]. apply staged_records.
    by apply records_emit. }
  intros _. destruct results as [|item rest]; [by apply staged_silent|].
  apply (staged_bind 2 3 5); [lia | lia | |].
  { apply (staged_weaken 3 3); [lia | lia |]. apply staged_records.
    by apply records_translate_all. }
  intros translated. apply (staged_bind 3 4 5); [lia | lia | |].
  { apply (staged_weaken 4 4); [lia | lia |]. apply staged_records.
    by apply records_process_image_any. }
  intros img_data. apply (staged_bind 4 4 5); [lia | lia | by apply staged_silent |].
  intros present. apply (staged_bind 4 5 5); [lia | lia | |].
  { destruct present; [|by apply staged_silent].
    apply (staged_weaken 5 5); [lia | lia |]. apply staged_records.
    by apply records_os_remove. }
  intros _. by apply staged_silent.
Qed.

Lemma staged_pipeline_handler e : staged 5 6 (pipeline_handler e).
Proof.
  destruct e as [returncode|msg]; simpl; [by apply staged_silent|].
  apply (staged_weaken 6 6); [lia | lia |]. apply staged_records.
  apply records_bind; [by apply records_emit|]. intros _. apply records_ret.
Qed.

Lemma in_stage_order_pair l1 a l2 b l3 :
  in_stage_order (l1 ++ a :: l2 ++ b :: l3) -> (phase a <= phase b)%nat.
Proof.
  unfold in_stage_order. intros Hsorted.
  induction l1 as [|x l1 IH]; simpl in Hsorted.
  - apply StronglySorted_inv in Hsorted as [_ Ha].
    rewrite Forall_forall in Ha. apply Ha.
    apply list_elem_of_In, in_or_app. right. by left.
  - apply StronglySorted_inv in Hsorted as [Hrest _]. by apply IH.
Qed.

(** The calls of a run come stage after stage, whatever the collaborators
    do: the capture, then the OCR (with its warning), then the printed
    count, then the translation calls and their error lines, then the
    drawing calls, then the removal of the capture, then the traceback of
    the handler.  No call of a stage is followed by a call of an earlier
    stage: in particular every translation call is made before the first
    drawing call. *)
Theorem stages_run_in_order {raster} (E : env raster) (self : API) (w : world) :
  exists evs,
    trace (snd (capture_and_translate E self w)) = trace w ++ evs /\
    in_stage_order evs /\
    (forall l1 a l2 b l3,
        evs = l1 ++ a :: l2 ++ b :: l3 -> (phase a <= phase b)%nat) /\
    (forall l1 l2 xy fill source target s,
        evs = l1 ++ EvRectangle xy fill :: l2 ->
        ~ In (EvTranslate source target s) l2).
Proof.
  destruct (staged_try_except 0 5 6 (pipeline_body E self) pipeline_handler
              ltac:(lia) ltac:(lia) (staged_pipeline_body E self)
              staged_pipeline_handler w) as (evs & Htrace & _ & Hsorted).
  exists evs. split; [exact Htrace|]. split; [exact Hsorted|]. split.
  - intros l1 a l2 b l3 ->. by eapply in_stage_order_pair.
  - intros l1 l2 xy fill source target s -> Hin.
    apply in_split in Hin as (l3 & l4 & ->).
    apply in_stage_order_pair in Hsorted. simpl in Hsorted. lia.
Qed.

(** ** The successful run *)









(** ** More edge cases *)

(** [_cleanup] never raises.  When there is no capture file it does
    nothing; otherwise it attempts one removal, after which the file is
    gone unless the system refused, and a refusal is swallowed.  No other
    file is touched. *)
Theorem _cleanup_never_raises {raster} (E : env raster) (self : API) (w : world) :
  exists w',
    _cleanup E self w = (Return tt, w') /\
    (files w !! temp_image self = None -> w' = w) /\
    (os_remove_error E = None -> files w' = delete (temp_image self) (files w)) /\
    (forall e, os_remove_error E = Some e -> files w' = files w) /\
    (forall path, path <> temp_image self -> files w' !! path = files w !! path).
Proof.
  rewrite _cleanup_run. eexists. split; [reflexivity|].
  destruct (files w !! temp_image self) eqn:Hfile.
  - split; [discriminate|]. simpl. split; [by intros ->|]. split; [by intros e ->|].
    intros path Hne. destruct (os_remove_error E); [done|].
    by apply lookup_delete_ne.
  - split; [done|]. split; [intros _; by rewrite delete_id|]. done.
Qed.


(** A text with no character of the target script is sent to the engine,
    once, with source "auto" and target "ja": the engine's answer is
    returned, and when the call raises the text is returned as it is after
    the error line was printed. *)
Theorem foreign_text_is_sent_to_the_engine {raster} (E : env raster)
    (call : nat) (s : pystr) (w : world) :
  Forall (fun c => ~ in_target_script c) s ->
  _translate_fragment E call s w =
  match GoogleTranslator E call "auto" "ja" s with
  | Return t => (Return t, log w [EvTranslate "auto" "ja" s])
  | Raise e =>
      (Return s, log w [EvTranslate "auto" "ja" s; EvPrint (LogTranslationError s e)])
  end.
Proof.
  intros Hforeign. rewrite _translate_fragment_run.
  assert (Hre : re_search japanese_class s = false).
  { destruct (re_search japanese_class s) eqn:Hre; [|done].
    apply re_search_japanese in Hre as (c & Hin & Hc).
    rewrite Forall_forall in Hforeign.
    destruct (Hforeign c); [by apply list_elem_of_In | done]. }
  unfold translation_of, translation_events. rewrite Hre.
  by destruct (GoogleTranslator E call "auto" "ja" s).
Qed.

(** When the capture program cannot be started (the call raises an
    exception that is not a [CalledProcessError]), the run returns the
    dict with the exception's message as error, not "Capture cancelled",
    after printing the traceback; the capture path is not looked at and no
    other collaborator is called. *)
Theorem capture_launch_failure_is_reported {raster} (E : env raster)
    (self : API) (w : world) (msg : pystr) :
  screencapture E = CaptureRaises (Exception msg) ->
  capture_and_translate E self w =
  (Return (error_result msg),
   log w [ EvSubprocessRun ["screencapture"; "-i"; temp_image self]%string;
           EvPrint (LogTraceback (Exception msg)) ]).
Proof.
  intros Hcap. unfold capture_and_translate.
  rewrite (try_run_raise _ _ w (Exception msg) (after_capture self None w)).
  - simpl. unfold print. rewrite (bind_run _ _ _ tt _ (emit_log _ _)).
    unfold ret, log, after_capture. simpl. by rewrite <- app_assoc.
  - unfold pipeline_body. apply bind_run_raise.
    by rewrite subprocess_run_check_run, Hcap.
Qed.

(** ** The further properties on the sample environment *)

Import More.

Lemma aborted_capture_after_startup_is_detected_witness :
  capture_and_translate E_aborted self0 (snd (API__init__ E0 boot)) =
  (Return (error_result (str "Canceled or failed to capture")),
   after_capture self0 None (snd (API__init__ E0 boot))).
Proof.
  apply (aborted_capture_after_startup_is_detected E0 E_aborted boot);
    reflexivity.
Defined.

Lemma ocr_exception_is_reported_witness :
  capture_and_translate E_ocr_raises self0 w0 =
  (Return (error_result (str "Vision request failed")),
   log (after_capture self0 (Some shot) w0)
       (ocr_events E_ocr_raises (temp_image self0) ++
        [EvPrint (LogTraceback (Exception (str "Vision request failed")))])).
Proof.
  apply (ocr_exception_is_reported E_ocr_raises self0 w0 shot); reflexivity.
Defined.



Lemma foreign_text_is_sent_to_the_engine_witness :
  _translate_fragment E0 0 hello w0 =
  (Return konnichiwa, log w0 [EvTranslate "auto" "ja" hello]).
Proof.
  apply (foreign_text_is_sent_to_the_engine E0 0 hello w0).
  unfold hello, str. simpl.
  repeat constructor; unfold in_target_script; lia.
Defined.

Lemma capture_launch_failure_is_reported_witness :
  capture_and_translate E_no_screencapture self0 w0 =
  (Return (error_result (str "No such file or directory: 'screencapture'")),
   log w0 [ EvSubprocessRun ["screencapture"; "-i"; temp_image self0]%string;
            EvPrint (LogTraceback
                       (Exception (str "No such file or directory: 'screencapture'"))) ]).
Proof.
  apply (capture_launch_failure_is_reported E_no_screencapture self0 w0).
  reflexivity.
Defined.

(** * The run when printing can fail and calls can be interrupted *)

(** ** Running the stages *)

Lemma py_bind_ok {A B} (m : Py.action A) (k : A -> Py.action B) w a w' :
  m w = (Py.Ok a, w') -> Py.bind m k w = k a w'.
Proof. intros Hm. unfold Py.bind. by rewrite Hm. Qed.

Lemma py_bind_err {A B} (m : Py.action A) (k : A -> Py.action B) w r w' :
  m w = (Py.Err r, w') -> Py.bind m k w = (Py.Err r, w').
Proof. intros Hm. unfold Py.bind. by rewrite Hm. Qed.

Lemma py_try_ok {A} (m : Py.action A) handler w a w' :
  m w = (Py.Ok a, w') -> Py.try_except m handler w = (Py.Ok a, w').
Proof. intros Hm. unfold Py.try_except. by rewrite Hm. Qed.

Lemma py_try_exc {A} (m : Py.action A) handler w e w' :
  m w = (Py.Err (Py.Exc e), w') -> Py.try_except m handler w = handler e w'.
Proof. intros Hm. unfold Py.try_except. by rewrite Hm. Qed.

Lemma py_try_base {A} (m : Py.action A) handler w name w' :
  m w = (Py.Err (Py.BaseExc name), w') ->
  Py.try_except m handler w = (Py.Err (Py.BaseExc name), w').
Proof. intros Hm. unfold Py.try_except. by rewrite Hm. Qed.

Lemma of_M_run {A} (m : M A) w o w' :
  m w = (o, w') -> Py.of_M m w = (Py.up o, w').
Proof. intros Hm. unfold Py.of_M. by rewrite Hm. Qed.

Lemma py_print_run {raster} (H : Py.host raster) line w :
  Py.print_error H line = None ->
  Py.print H line w = (Py.Ok tt, log w [EvPrint line]).
Proof. intros Hp. unfold Py.print. by rewrite Hp. Qed.

Lemma py_print_fails {raster} (H : Py.host raster) line e w :
  Py.print_error H line = Some e ->
  Py.print H line w = (Py.Err (Py.Exc e), w).
Proof. intros Hp. unfold Py.print. by rewrite Hp. Qed.

(** ** Where the assumptions hold, the two readings agree *)

Lemma of_M_ret {A} (a : A) w : Py.of_M (ret a) w = Py.ret a w.
Proof. reflexivity. Qed.

Lemma of_M_raise {A} e w : Py.of_M (@raise A e) w = Py.raise (Py.Exc e) w.
Proof. reflexivity. Qed.

Lemma of_M_bind {A B} (m : M A) (k : A -> M B) w :
  Py.of_M (bind m k) w = Py.bind (Py.of_M m) (fun a => Py.of_M (k a)) w.
Proof.
  unfold Py.of_M, Py.bind, bind. destruct (m w) as [[a|e] w1]; reflexivity.
Qed.

Lemma of_M_try_except {A} (m : M A) (handler : exn -> M A) w :
  Py.of_M (try_except m handler) w =
  Py.try_except (Py.of_M m) (fun e => Py.of_M (handler e)) w.
Proof.
  unfold Py.of_M, Py.try_except, try_except.
  destruct (m w) as [[a|e] w1]; reflexivity.
Qed.

Lemma py_bind_ext {A B} (m m' : Py.action A) (k k' : A -> Py.action B) w :
  m w = m' w -> (forall a w1, k a w1 = k' a w1) ->
  Py.bind m k w = Py.bind m' k' w.
Proof.
  intros Hm Hk. unfold Py.bind. rewrite Hm.
  destruct (m' w) as [[a|r] w1]; [apply Hk | reflexivity].
Qed.

Lemma py_try_ext {A} (m m' : Py.action A) (h h' : exn -> Py.action A) w :
  m w = m' w -> (forall e w1, h e w1 = h' e w1) ->
  Py.try_except m h w = Py.try_except m' h' w.
Proof.
  intros Hm Hh. unfold Py.try_except. rewrite Hm.
  destruct (m' w) as [[a|[e|name]] w1]; [reflexivity | apply Hh | reflexivity].
Qed.

(** A task whose engine call is not interrupted and whose error line, if
    one is due, can be printed does what the first reading says. *)
Lemma _translate_fragment_agrees {raster} (H : Py.host raster) i s w :
  (re_search japanese_class s = false ->
   Py.translate_base_exception H i = None /\
   forall e, GoogleTranslator (Py.base H) i "auto" "ja" s = Raise e ->
             Py.print_error H (LogTranslationError s e) = None) ->
  Py._translate_fragment H i s w = Py.of_M (_translate_fragment (Py.base H) i s) w.
Proof.
  intros Hs. unfold Py._translate_fragment, _translate_fragment.
  rewrite of_M_try_except.
  destruct (re_search japanese_class s) eqn:Hre; [reflexivity|].
  destruct (Hs eq_refl) as [Hint Hlog].
  unfold Py.translate. rewrite Hint.
  unfold Py.try_except, Py.of_M at 1 3, translate, bind at 1 3.
  rewrite !emit_log.
  destruct (GoogleTranslator (Py.base H) i "auto" "ja" s) as [t|e];
    [reflexivity|].
  simpl. by rewrite (py_bind_ok _ _ _ tt _ (py_print_run H _ _ (Hlog e eq_refl))).
Qed.

(** The pool: tasks that agree give lists that agree, whatever the order
    in which they finish. *)
Section PoolAgrees.
Context {A B : Type}.
Variable fn : nat -> A -> M B.
Variable fn' : nat -> A -> Py.action B.
Variable args : list A.

Hypothesis fn_agrees :
  forall i a w, args !! i = Some a -> fn' i a w = Py.of_M (fn i a) w.

Lemma ups_lookup (futures : list (option (outcome B))) i :
  Py.ups futures !! i = fmap (fmap Py.up) (futures !! i).
Proof. unfold Py.ups. apply list_lookup_fmap. Qed.

Lemma ups_insert (futures : list (option (outcome B))) i r :
  Py.ups (<[i := Some r]> futures) = <[i := Some (Py.up r)]> (Py.ups futures).
Proof. unfold Py.ups. exact (list_fmap_insert (fmap Py.up) futures i (Some r)). Qed.

Lemma run_pool_agrees order : forall futures w,
  Py.run_pool fn' args order (Py.ups futures) w =
  (Py.ups (fst (run_pool fn args order futures w)),
   snd (run_pool fn args order futures w)).
Proof.
  induction order as [|i order IH]; intros futures w; simpl; [reflexivity|].
  rewrite ups_lookup.
  destruct (args !! i) as [a|] eqn:Ha; [|apply IH].
  destruct (futures !! i) as [[o|]|]; simpl; try apply IH.
  rewrite (fn_agrees i a w Ha). unfold Py.of_M.
  destruct (fn i a w) as [r w']. rewrite <- ups_insert. apply IH.
Qed.

Lemma collect_agrees : forall (l : list A) offset futures w,
  (forall k a, l !! k = Some a -> args !! (offset + k)%nat = Some a) ->
  Py.collect fn' offset l (Py.ups futures) w =
  Py.of_M (collect fn offset l futures) w.
Proof.
  induction l as [|a l IH]; intros offset futures w Hargs.
  - by destruct futures.
  - destruct futures as [|f futures]; [reflexivity|].
    simpl. rewrite of_M_bind. apply py_bind_ext.
    + destruct f as [o|]; simpl.
      * by destruct o.
      * apply fn_agrees. specialize (Hargs 0%nat a eq_refl).
        by rewrite Nat.add_0_r in Hargs.
    + intros r w1. rewrite of_M_bind. apply py_bind_ext; [|reflexivity].
      apply IH. intros k a' Hk. specialize (Hargs (S k) a' Hk).
      by replace (S offset + k)%nat with (offset + S k)%nat by lia.
Qed.

Lemma executor_map_agrees order w :
  Py.executor_map fn' args order w = Py.of_M (executor_map fn args order) w.
Proof.
  unfold Py.executor_map, executor_map.
  assert (Hnone : replicate (length args) None =
                  Py.ups (replicate (length args) (@None (outcome B)))).
  { unfold Py.ups. by rewrite fmap_replicate. }
  rewrite Hnone, run_pool_agrees.
  unfold Py.of_M at 1.
  destruct (run_pool fn args order (replicate (length args) None) w)
    as [futures w1]. simpl.
  by apply collect_agrees.
Qed.
End PoolAgrees.

Lemma translate_all_agrees {raster} (H : Py.host raster) results w :
  Py.failures_are_logged H results ->
  Py.translate_all H results w = Py.of_M (translate_all (Py.base H) results) w.
Proof.
  intros Hlogged. unfold Py.translate_all, translate_all.
  apply executor_map_agrees. intros i s w0 Hs.
  apply list_lookup_fmap_Some_1 in Hs as (item & -> & Hitem).
  apply _translate_fragment_agrees. intros Hre.
  by apply (Hlogged i item).
Qed.

(** ** The translation stage when failures are logged *)

Lemma failures_are_logged_with_order {raster} (H : Py.host raster) order results :
  Py.failures_are_logged H results ->
  Py.failures_are_logged (Py.with_order H order) results.
Proof. intros Hlogged. exact Hlogged. Qed.

Lemma py_translate_all_run {raster} (H : Py.host raster) results w :
  Py.failures_are_logged H results ->
  exists evs,
    Py.translate_all H results w
      = (Py.Ok (translations (Py.base H) results), log w evs) /\
    from_tasks (translation_events (Py.base H)) (map text results) evs.
Proof.
  intros Hlogged. rewrite translate_all_agrees by done.
  destruct (translate_all_run (Py.base H) results w) as (evs & Hrun & Hev).
  exists evs. split; [|done]. by rewrite (of_M_run _ _ _ _ Hrun).
Qed.

(** C3 (amended).  When the engine raises an instance of [Exception] on
    the call for fragment [i], and in the batch no engine call ends in an
    exception outside [Exception] and the error line of every call that
    raises can be printed, the stage returns, with as many results as
    fragments; the result at [i] is the fragment's own text, and the
    result at any other index [j] is what it is with every host whose
    engine answers the call for [j] the same way. *)
Theorem logged_translation_failure_is_isolated {raster} (H : Py.host raster)
    (order : list nat) (results : list fragment) (w : world)
    (i : nat) (item : fragment) (e : exn) :
  results !! i = Some item ->
  GoogleTranslator (Py.base H) i "auto" "ja" (text item) = Raise e ->
  Py.failures_are_logged H results ->
  exists translated w',
    Py.translate_all (Py.with_order H order) results w
      = (Py.Ok translated, w') /\
    length translated = length results /\
    translated !! i = Some (text item) /\
    (forall (H' : Py.host raster) order' w0 j,
       j <> i ->
       (forall s, GoogleTranslator (Py.base H') j "auto" "ja" s
                  = GoogleTranslator (Py.base H) j "auto" "ja" s) ->
       Py.failures_are_logged H' results ->
       exists translated' w0',
         Py.translate_all (Py.with_order H' order') results w0
           = (Py.Ok translated', w0') /\
         translated' !! j = translated !! j).
Proof.
  intros Hi Hraise Hlogged.
  destruct (py_translate_all_run (Py.with_order H order) results w)
    as (evs & Hrun & _); [by apply failures_are_logged_with_order|].
  exists (translations (Py.base H) results), (log w evs). split; [exact Hrun|].
  split; [apply translations_length|]. split.
  - rewrite (translations_lookup (Py.base H) results i item Hi). f_equal.
    unfold translation_of. rewrite Hraise. by destruct (re_search _ _).
  - intros H' order' w0 j Hj Hsame Hlogged'.
    destruct (py_translate_all_run (Py.with_order H' order') results w0)
      as (evs' & Hrun' & _); [by apply failures_are_logged_with_order|].
    exists (translations (Py.base H') results), (log w0 evs').
    split; [exact Hrun'|].
    destruct (results !! j) as [item'|] eqn:Hj'.
    + rewrite (translations_lookup (Py.base H') results j item' Hj'),
              (translations_lookup (Py.base H) results j item' Hj').
      unfold translation_of. by rewrite Hsame.
    + apply lookup_ge_None in Hj'.
      rewrite !(proj2 (lookup_ge_None _ _)); [done| |];
        by rewrite translations_length.
Qed.

(** ** What a run returns, and what it can raise *)

Lemma py_returns_ret {A} (Q : A -> Prop) a : Q a -> Py.returns Q (Py.ret a).
Proof. intros HQ w a' w' [= <- _]. exact HQ. Qed.

Lemma py_returns_bind {A B} (Q : B -> Prop) (m : Py.action A) (k : A -> Py.action B) :
  (forall a, Py.returns Q (k a)) -> Py.returns Q (Py.bind m k).
Proof.
  intros Hk w b w'. unfold Py.bind. destruct (m w) as [[a|r] w1]; [|done].
  apply Hk.
Qed.

Lemma py_returns_of_M {A} (Q : A -> Prop) (m : M A) :
  returns Q m -> Py.returns Q (Py.of_M m).
Proof.
  intros Hm w a w'. unfold Py.of_M.
  destruct (m w) as [[a0|e] w1] eqn:Hrun; simpl; [|done].
  intros [= <- <-]. by eapply Hm.
Qed.

Lemma py_returns_pipeline_body {raster} (H : Py.host raster) self :
  Py.returns (is_result (Py.base H)) (Py.pipeline_body H self).
Proof.
  unfold Py.pipeline_body. apply py_returns_bind. intros _.
  apply py_returns_bind. intros captured. destruct (negb captured).
  { apply py_returns_ret. right. by eexists. }
  apply py_returns_bind. intros results. apply py_returns_bind. intros _.
  destruct results as [|item rest].
  { apply py_returns_ret. right. by eexists. }
  apply py_returns_bind. intros translated. intros w r w'. unfold Py.bind at 1.
  destruct (Py.of_M (process_image (Py.base H) self (item :: rest) translated) w)
    as [[img_data|e] w1] eqn:Himg; [|done].
  apply (py_returns_of_M _ _ (returns_process_image _ _ _ _)) in Himg as [png ->].
  revert w1 r w'. apply py_returns_bind. intros present. apply py_returns_bind.
  intros _. apply py_returns_ret. left. by exists png.
Qed.

Lemma catchable_ret {A} (a : A) : Py.catchable (Py.ret a).
Proof. intros w r w' [=]. Qed.

Lemma catchable_raise {A} e : Py.catchable (@Py.raise A (Py.Exc e)).
Proof. intros w r w' [= <- _]. by exists e. Qed.

Lemma catchable_of_M {A} (m : M A) : Py.catchable (Py.of_M m).
Proof.
  intros w r w'. unfold Py.of_M. destruct (m w) as [[a|e] w1]; simpl; [done|].
  intros [= <- _]. by exists e.
Qed.

Lemma catchable_bind {A B} (m : Py.action A) (k : A -> Py.action B) :
  Py.catchable m -> (forall a, Py.catchable (k a)) -> Py.catchable (Py.bind m k).
Proof.
  intros Hm Hk w r w'. unfold Py.bind.
  destruct (m w) as [[a|r0] w1] eqn:Hrun.
  - apply Hk.
  - intros [= <- _]. by eapply Hm.
Qed.

Lemma catchable_try_except {A} (m : Py.action A) (handler : exn -> Py.action A) :
  Py.catchable m -> (forall e, Py.catchable (handler e)) ->
  Py.catchable (Py.try_except m handler).
Proof.
  intros Hm Hh w r w'. unfold Py.try_except.
  destruct (m w) as [[a|[e|name]] w1] eqn:Hrun.
  - done.
  - apply Hh.
  - destruct (Hm _ _ _ Hrun) as [e [=]].
Qed.

Lemma catchable_print {raster} (H : Py.host raster) line :
  Py.catchable (Py.print H line).
Proof.
  unfold Py.print. destruct (Py.print_error H line);
    [apply catchable_raise | apply catchable_of_M].
Qed.

Lemma catchable__translate_fragment {raster} (H : Py.host raster) i s :
  Py.translate_base_exception H i = None ->
  Py.catchable (Py._translate_fragment H i s).
Proof.
  intros Hint. unfold Py._translate_fragment. apply catchable_try_except.
  - destruct (re_search japanese_class s); [apply catchable_ret|].
    unfold Py.translate. rewrite Hint. apply catchable_of_M.
  - intros e. apply catchable_bind; [apply catchable_print|].
    intros _. apply catchable_ret.
Qed.

Section PoolCatchable.
Context {A B : Type}.
Variable fn : nat -> A -> Py.action B.
Variable args : list A.

Hypothesis fn_catchable : forall i a, Py.catchable (fn i a).

Lemma run_pool_catchable order : forall futures w,
  (forall k r, futures !! k = Some (Some (Py.Err r)) -> exists e, r = Py.Exc e) ->
  forall k r,
    fst (Py.run_pool fn args order futures w) !! k = Some (Some (Py.Err r)) ->
    exists e, r = Py.Exc e.
Proof.
  induction order as [|i order IH]; intros futures w Hf; simpl; [exact Hf|].
  destruct (args !! i) as [a|]; [|by apply IH].
  destruct (futures !! i) as [[o|]|] eqn:Hi; try by apply IH.
  destruct (fn i a w) as [o w1] eqn:Hrun. apply IH.
  intros k r Hk. destruct (decide (i = k)) as [->|Hne].
  - rewrite list_lookup_insert_eq in Hk by (by eapply lookup_lt_Some).
    injection Hk as ->. by eapply fn_catchable.
  - rewrite list_lookup_insert_ne in Hk by done. by eapply Hf.
Qed.

Lemma collect_catchable : forall (l : list A) offset futures,
  (forall k r, futures !! k = Some (Some (Py.Err r)) -> exists e, r = Py.Exc e) ->
  Py.catchable (Py.collect fn offset l futures).
Proof.
  induction l as [|a l IH]; intros offset futures Hf; simpl.
  - destruct futures; apply catchable_ret.
  - destruct futures as [|f futures]; [apply catchable_ret|].
    apply catchable_bind.
    + destruct f as [o|]; [|apply fn_catchable].
      intros w r w' [= -> _]. by apply (Hf 0%nat).
    + intros b. apply catchable_bind; [|intros; apply catchable_ret].
      apply IH. intros k r Hk. by apply (Hf (S k)).
Qed.

Lemma executor_map_catchable order : Py.catchable (Py.executor_map fn args order).
Proof.
  intros w r w'. unfold Py.executor_map.
  destruct (Py.run_pool fn args order (replicate (length args) None) w)
    as [futures w1] eqn:Hpool.
  apply collect_catchable. intros k r0 Hk.
  assert (Hnone : forall k0 r1,
             replicate (length args) (@None (Py.result B)) !! k0
               = Some (Some (Py.Err r1)) ->
             exists e, r1 = Py.Exc e).
  { intros k0 r1 Hk0. apply lookup_replicate in Hk0. by destruct Hk0. }
  apply (run_pool_catchable order _ w Hnone k r0). by rewrite Hpool.
Qed.
End PoolCatchable.

Lemma catchable__ocr_vision {raster} (H : Py.host raster) path :
  Py.catchable (Py._ocr_vision H path).
Proof.
  unfold Py._ocr_vision. apply catchable_bind.
  { apply catchable_try_except.
    - destruct (setRecognitionLanguages (Py.base H));
        [apply catchable_raise | apply catchable_ret].
    - intros e. apply catchable_print. }
  intros _. apply catchable_bind; [apply catchable_of_M|].
  intros _. apply catchable_bind; [apply catchable_of_M|].
  intros image. destruct (performRequests (Py.base H) image) as [e|ok observations].
  - apply catchable_raise.
  - simpl. destruct (Py.request_results ok observations);
      [apply catchable_ret | apply catchable_raise].
Qed.

Lemma catchable_pipeline_body {raster} (H : Py.host raster) self :
  Py.uninterrupted H -> Py.catchable (Py.pipeline_body H self).
Proof.
  intros [Hcap Htr]. unfold Py.pipeline_body.
  apply catchable_bind.
  { unfold Py.subprocess_run_check. rewrite Hcap. apply catchable_of_M. }
  intros _. apply catchable_bind; [apply catchable_of_M|]. intros captured.
  destruct (negb captured); [apply catchable_ret|].
  apply catchable_bind; [apply catchable__ocr_vision|]. intros results.
  apply catchable_bind; [apply catchable_print|]. intros _.
  destruct results as [|item rest]; [apply catchable_ret|].
  apply catchable_bind.
  { unfold Py.translate_all. apply executor_map_catchable.
    intros i s. by apply catchable__translate_fragment. }
  intros translated. apply catchable_bind; [apply catchable_of_M|].
  intros img_data. apply catchable_bind; [apply catchable_of_M|].
  intros present. apply catchable_bind.
  { destruct present; [apply catchable_of_M | apply catchable_ret]. }
  intros _. apply catchable_ret.
Qed.

(** C8 (amended).  When no call ends in an exception that is not an
    instance of [Exception], and the traceback can be printed,
    [capture_and_translate] returns (it does not raise), and what it
    returns is a dict with the single key "image" holding a PNG data URI
    or with the single key "error" holding a string; whatever the body of
    the [try] raises ends in the second. *)
Theorem uninterrupted_run_returns_a_result {raster} (H : Py.host raster)
    (self : API) (w : world) :
  Py.uninterrupted H ->
  (forall e, Py.print_error H (LogTraceback e) = None) ->
  exists r w',
    Py.capture_and_translate H self w = (Py.Ok r, w') /\
    is_result (Py.base H) r /\
    (forall x w1, Py.pipeline_body H self w = (Py.Err x, w1) ->
                  exists msg, r = error_result msg).
Proof.
  intros Hun Htb. unfold Py.capture_and_translate, Py.try_except.
  destruct (Py.pipeline_body H self w) as [[r|[e|name]] w1] eqn:Hbody.
  - exists r, w1. split; [done|]. split; [|done].
    by eapply py_returns_pipeline_body.
  - destruct e as [returncode|msg]; simpl.
    + eexists _, _. split; [reflexivity|]. split; [right|]; by eexists.
    + rewrite (py_bind_ok _ _ _ tt _ (py_print_run H _ _ (Htb _))).
      eexists _, _. split; [reflexivity|]. split; [right|]; by eexists.
  - destruct (catchable_pipeline_body H self Hun _ _ _ Hbody) as [e [=]].
Qed.

(** ** Recognition: a failed request against an empty result *)

Lemma py__ocr_vision_run {raster} (H : Py.host raster) image_path w :
  Py.warning_prints H ->
  Py._ocr_vision H image_path w =
  (match performRequests (Py.base H) (files w !! image_path) with
   | VisionRaises e => Py.Err (Py.Exc e)
   | VisionDone ok observations =>
       if ok then Py.Ok (ocr_data observations)
       else Py.Err (Py.Exc Py.not_iterable)
   end, log w (ocr_events (Py.base H) image_path)).
Proof.
  intros Hwarn. unfold Py._ocr_vision, ocr_events.
  set (warn := match setRecognitionLanguages (Py.base H) with
               | Some e => [EvPrint (LogLanguagesWarning e)]
               | None => []
               end).
  rewrite (py_bind_ok _ _ w tt (log w warn)).
  2:{ subst warn. destruct (setRecognitionLanguages (Py.base H)) as [e|] eqn:Hlang.
      - rewrite (py_try_exc _ _ w e w) by reflexivity.
        apply py_print_run. by apply Hwarn.
      - by rewrite (py_try_ok _ _ w tt w), log_nil. }
  rewrite (py_bind_ok _ _ _ tt (log w (warn ++ [EvPerformRequests image_path])))
    by (by rewrite (of_M_run _ _ _ _ (emit_log _ _)), log_log).
  rewrite (py_bind_ok _ _ _ (files w !! image_path)
             (log w (warn ++ [EvPerformRequests image_path]))) by reflexivity.
  destruct (performRequests (Py.base H) (files w !! image_path))
    as [e|ok observations]; [reflexivity|].
  by destruct ok.
Qed.







(** [_ocr_vision] when the warning of line 138, if due, can be printed: a
    failure to set the recognition languages is printed and the
    recognition still runs; what the recognition call raises is raised; a
    request that fails ends in the [TypeError] of line 147, not in the
    empty list; a request that succeeds gives, in the engine's order, one
    fragment for each observation that has a candidate.  No file is
    changed. *)
Theorem _ocr_vision_raises_on_a_failed_request {raster} (H : Py.host raster)
    (image_path : string) (w : world) :
  Py.warning_prints H ->
  fst (Py._ocr_vision H image_path w) =
    match performRequests (Py.base H) (files w !! image_path) with
    | VisionRaises e => Py.Err (Py.Exc e)
    | VisionDone true observations =>
        Py.Ok (map fragment_of (List.filter has_candidate observations))
    | VisionDone false _ =>
        Py.Err (Py.Exc (Exception (str "'NoneType' object is not iterable")))
    end /\
  trace (snd (Py._ocr_vision H image_path w)) =
    trace w ++
    match setRecognitionLanguages (Py.base H) with
    | Some e => [EvPrint (LogLanguagesWarning e)]
    | None => []
    end ++ [EvPerformRequests image_path] /\
  files (snd (Py._ocr_vision H image_path w)) = files w.
Proof.
  intros Hwarn. rewrite (py__ocr_vision_run H _ _ Hwarn). simpl.
  split; [|done].
  destruct (performRequests (Py.base H) (files w !! image_path))
    as [e|[|] observations]; [done| |done].
  by rewrite ocr_data_map_filter.
Qed.

(** When the recognition languages cannot be set and the warning cannot
    be printed either, [_ocr_vision] raises what the [print] raised, and
    the recognition call is not made. *)
Lemma unprinted_warning_ends_the_recognition {raster} (H : Py.host raster)
    image_path w e e' :
  setRecognitionLanguages (Py.base H) = Some e ->
  Py.print_error H (LogLanguagesWarning e) = Some e' ->
  Py._ocr_vision H image_path w = (Py.Err (Py.Exc e'), w).
Proof.
  intros Hlang Hprint. unfold Py._ocr_vision. apply py_bind_err.
  rewrite Hlang. rewrite (py_try_exc _ _ w e w) by reflexivity.
  by apply py_print_fails.
Qed.

(** ** Under the assumptions, the run is the one of the first reading *)

Lemma print_agrees {raster} (H : Py.host raster) line w :
  Py.print_error H line = None -> Py.print H line w = Py.of_M (print line) w.
Proof. intros Hp. unfold Py.print. by rewrite Hp. Qed.

Lemma _ocr_vision_agrees {raster} (H : Py.host raster) image_path w :
  Py.warning_prints H -> Py.recognition_succeeds (Py.base H) ->
  Py._ocr_vision H image_path w = Py.of_M (_ocr_vision (Py.base H) image_path) w.
Proof.
  intros Hwarn Hok. rewrite (py__ocr_vision_run H _ _ Hwarn).
  rewrite (of_M_run _ _ _ _ (_ocr_vision_run (Py.base H) image_path w)).
  destruct (performRequests (Py.base H) (files w !! image_path))
    as [e|ok observations] eqn:Hocr; [reflexivity|].
  by rewrite (Hok _ _ _ Hocr).
Qed.

(** When every line can be printed, no call is interrupted and the
    recognition reports no failed request, a run does what the first
    reading says: every statement made of [capture_and_translate] above
    is a statement of such runs. *)
Lemma capture_and_translate_agrees {raster} (H : Py.host raster) self w :
  Py.prints H -> Py.uninterrupted H -> Py.recognition_succeeds (Py.base H) ->
  Py.capture_and_translate H self w
    = Py.of_M (capture_and_translate (Py.base H) self) w.
Proof.
  intros Hprints [Hcap Htr] Hok.
  unfold Py.capture_and_translate, capture_and_translate.
  rewrite of_M_try_except. apply py_try_ext.
  - unfold Py.pipeline_body, pipeline_body.
    rewrite of_M_bind. apply py_bind_ext.
    { unfold Py.subprocess_run_check. by rewrite Hcap. }
    intros _ w1. rewrite of_M_bind. apply py_bind_ext; [reflexivity|].
    intros captured w2. destruct (negb captured); [reflexivity|].
    rewrite of_M_bind. apply py_bind_ext.
    { apply _ocr_vision_agrees; [|done]. intros e _. apply Hprints. }
    intros results w3. rewrite of_M_bind. apply py_bind_ext.
    { apply print_agrees, Hprints. }
    intros _ w4. destruct results as [|item rest]; [reflexivity|].
    rewrite of_M_bind. apply py_bind_ext.
    { apply translate_all_agrees. intros i item' _ _. split; [apply Htr|].
      intros e _. apply Hprints. }
    intros translated w5. rewrite of_M_bind. apply py_bind_ext; [reflexivity|].
    intros img_data w6. rewrite of_M_bind. apply py_bind_ext; [reflexivity|].
    intros present w7. rewrite of_M_bind. apply py_bind_ext; [|reflexivity].
    by destruct present.
  - intros [returncode|msg] w1; simpl; [reflexivity|].
    rewrite of_M_bind. apply py_bind_ext; [|reflexivity].
    apply print_agrees, Hprints.
Qed.

(** ** Runs of the sample hosts *)

(** C3, as stated, fails.  The engine raises on the first of two calls
    and the error line cannot be printed: what the [print] of line 54
    raises leaves the handler, and the stage raises it.  The first call
    ends in a [SystemExit]: [except Exception] does not catch it, and the
    stage raises it.  In both cases the batch is aborted and gives no
    list. *)
Lemma unlogged_translation_failure_aborts_the_batch :
  fst (Py.translate_all PyScenario.H_unlogged_failure Scenario.twice Sample.w0)
    = Py.Err (Py.Exc (Exception (str "I/O operation on closed file."))) /\
  fst (Py.translate_all PyScenario.H_exiting_call Scenario.twice Sample.w0)
    = Py.Err (Py.BaseExc (str "SystemExit")).
Proof. vm_compute. done. Qed.

Lemma logged_translation_failure_is_isolated_witness :
  exists translated w',
    Py.translate_all
      (Py.with_order (Py.assumed Scenario.E_first_call_fails) [1; 0]%nat)
      Scenario.twice Sample.w0
      = (Py.Ok translated, w') /\
    length translated = length Scenario.twice /\
    translated !! 0%nat = Some Sample.hello /\
    (forall (H' : Py.host Sample.canvas) order' w1 j,
       j <> 0%nat ->
       (forall s, GoogleTranslator (Py.base H') j "auto" "ja" s
                  = GoogleTranslator Scenario.E_first_call_fails j "auto" "ja" s) ->
       Py.failures_are_logged H' Scenario.twice ->
       exists translated' w1',
         Py.translate_all (Py.with_order H' order') Scenario.twice w1
           = (Py.Ok translated', w1') /\
         translated' !! j = translated !! j).
Proof.
  apply (logged_translation_failure_is_isolated
           (Py.assumed Scenario.E_first_call_fails) [1; 0]%nat Scenario.twice
           Sample.w0 0%nat
           {| text := Sample.hello;
              box := mkBox 0.1%float 0.8%float 0.3%float 0.1%float |}
           (Exception (str "Request exception"))).
  - reflexivity.
  - reflexivity.
  - intros i item _ _. split; [reflexivity|]. intros e _. reflexivity.
Defined.

(** C8, as stated, fails.  The recognition call raises and the traceback
    cannot be printed: what the [print] of line 121 raises leaves the
    handler, and the run raises it.  The capture is interrupted: the
    interrupt is not an instance of [Exception], no handler catches it, and
    the run raises it. *)
Lemma run_raises_when_the_traceback_cannot_be_printed :
  fst (Py.capture_and_translate PyScenario.H_unprinted_traceback Sample.self0 Sample.w0)
    = Py.Err (Py.Exc (Exception (str "I/O operation on closed file."))) /\
  fst (Py.capture_and_translate PyScenario.H_interrupted_capture Sample.self0 Sample.w0)
    = Py.Err (Py.BaseExc (str "KeyboardInterrupt")).
Proof. vm_compute. done. Qed.

Lemma uninterrupted_run_returns_a_result_witness :
  exists r w',
    Py.capture_and_translate (Py.assumed More.E_ocr_raises) Sample.self0 Sample.w0
      = (Py.Ok r, w') /\
    is_result More.E_ocr_raises r /\
    (forall x w1,
       Py.pipeline_body (Py.assumed More.E_ocr_raises) Sample.self0 Sample.w0
         = (Py.Err x, w1) ->
       exists msg, r = error_result msg).
Proof.
  apply (uninterrupted_run_returns_a_result (Py.assumed More.E_ocr_raises)
           Sample.self0 Sample.w0).
  - split; [reflexivity|]. intros i. reflexivity.
  - intros e. reflexivity.
Defined.


Lemma _ocr_vision_raises_on_a_failed_request_witness :
  fst (Py._ocr_vision PyScenario.H_no_languages "temp_capture.png"
         (after_capture Sample.self0 (Some Sample.shot) Sample.w0)) =
    Py.Ok [ {| text := Sample.hello;
               box := mkBox 0.1%float 0.8%float 0.3%float 0.1%float |} ] /\
  trace (snd (Py._ocr_vision PyScenario.H_no_languages "temp_capture.png"
                (after_capture Sample.self0 (Some Sample.shot) Sample.w0))) =
    [ EvSubprocessRun ["screencapture"; "-i"; "temp_capture.png"]%string;
      EvPrint (LogLanguagesWarning (Exception (str "unsupported language")));
      EvPerformRequests "temp_capture.png" ] /\
  files (snd (Py._ocr_vision PyScenario.H_no_languages "temp_capture.png"
                (after_capture Sample.self0 (Some Sample.shot) Sample.w0)))
    = files (after_capture Sample.self0 (Some Sample.shot) Sample.w0).
Proof.
  apply (_ocr_vision_raises_on_a_failed_request PyScenario.H_no_languages
           "temp_capture.png"
           (after_capture Sample.self0 (Some Sample.shot) Sample.w0)).
  intros e _. reflexivity.
Defined.
